(** * HNSWMatcher: the HNSW nearest-neighbour matcher of openMVG

    A shallow embedding of [openMVG/matching/matcher_hnsw.hpp]: the class
    template [HNSWMatcher<Scalar, Metric, MetricType>] with its three member
    functions [Build], [SearchNeighbour] and [SearchNeighbours], and the
    properties of the matcher that follow from that code.

    The matcher delegates to hnswlib ([third_party/hnswlib]).  The library is
    an interface here (class [hnswlib]); every call the matcher makes to it is
    recorded in a call log, so that statements such as "no point was inserted"
    or "the breadth was set before the search" can be read off a run.

    What the embedding leaves out: [resize] always succeeds (no allocation
    failure), the library throws nothing, and a pointer is not checked
    against the extent of its buffer.  An [omp parallel for] loop is a loop
    whose iterations run in an order the code does not fix: the functions
    [Build_scheduled] and [SearchNeighbours_scheduled] take that order as
    their first argument, and [Build] and [SearchNeighbours] are the runs in
    index order, which is what a build without OpenMP does.

    A second part embeds [Save_PLY] of [openMVG/sfm/sfm_data_io_ply.hpp],
    the export of a scene as a PLY point cloud. *)

From Stdlib Require Import ZArith List Bool Lia Permutation Sorted String Ascii.
From stdpp Require Import base tactics option list sorting.

Local Open Scope Z_scope.

(** ** C++ scalar types

    Unsigned types wrap around; [int] is a 32-bit two's complement integer
    whose arithmetic overflow is undefined behaviour. *)
Module Cxx.

Definition SIZE_MODULUS : Z := 2 ^ 64.
Definition INT_MAX : Z := 2 ^ 31 - 1.
Definition INT_MIN : Z := - 2 ^ 31.

(** [static_cast<size_t>(z)], and the result of [size_t] arithmetic. *)
Definition to_size_t (z : Z) : Z := z mod SIZE_MODULUS.

(** [static_cast<IndexT>(z)]; [IndexT] is [uint32_t] ([openMVG/types.hpp]). *)
Definition to_IndexT (z : Z) : Z := z mod 2 ^ 32.

(** Conversion of a [size_t] to [int] (the assignment [*indice = label]). *)
Definition to_int (z : Z) : Z := (z + 2 ^ 31) mod 2 ^ 32 - 2 ^ 31.

Definition is_size_t (z : Z) : Prop := 0 <= z < SIZE_MODULUS.
Definition is_int (z : Z) : Prop := INT_MIN <= z <= INT_MAX.

Definition in_int (z : Z) : bool := (INT_MIN <=? z) && (z <=? INT_MAX).

End Cxx.
Import Cxx.

(** ** Runs that may hit undefined behaviour

    [Done a] is a run that returns [a]; [Undefined] is a run that executes
    something the C++ standard leaves undefined (signed overflow, [top()] of
    an empty queue, a vector subscript out of range). *)
Inductive outcome (A : Type) : Type :=
  | Done (a : A)
  | Undefined.
Arguments Done {A} a.
Arguments Undefined {A}.

#[global] Instance outcome_ret : MRet outcome := @Done.
#[global] Instance outcome_bind : MBind outcome :=
  fun A B f x => match x with Done a => f a | Undefined => Undefined end.

(** The product of two [int]s. *)
Definition int_mul (a b : Z) : outcome Z :=
  if in_int (a * b) then Done (a * b) else Undefined.

(** [v[i] = x] on a [std::vector]. *)
Definition vector_set {A} (v : list A) (i : Z) (x : A) : outcome (list A) :=
  if (0 <=? i) && (i <? Z.of_nat (length v))
  then Done (<[Z.to_nat i := x]> v)
  else Undefined.

(** ** The template parameters and the metric dispatch *)

(** [enum HNSWMETRIC]; the [default:] branch of the switch in [Build] is
    for no enumerator and has no counterpart here. *)
Inductive HNSWMETRIC : Type := L2_HNSW | L1_HNSW | HAMMING_HNSW.

(** The scalar types [typeid] tells apart. *)
Inductive ctype : Type := c_int | c_unsigned_int | c_float | c_double.

Definition ctype_eqb (a b : ctype) : bool :=
  match a, b with
  | c_int, c_int | c_unsigned_int, c_unsigned_int
  | c_float, c_float | c_double, c_double => true
  | _, _ => false
  end.

(** The metric spaces [Build] can construct, each over [dim] components. *)
Inductive SpaceClass : Type :=
  | L1SpaceInteger | L2SpaceI | L2Space | HammingSpace_uint8.

Record SpaceInterface : Type := {
  space_class : SpaceClass;
  space_dim : Z
}.

(** One instantiation of the class template: [Scalar], the metric's
    [ResultType] (as [DistanceType], with its [typeid], its value
    initialisation and its [operator<]) and [MetricType]. *)
Class TemplateArgs : Type := {
  Scalar : Type;
  DistanceType : Type;
  DistanceType_id : ctype;
  MetricType : HNSWMETRIC;
  DistanceType_zero : DistanceType;
  dist_lt : DistanceType -> DistanceType -> bool
}.

(** [operator<] of [DistanceType] is a strict total order (it is for [int]
    and [unsigned int], and for [float] away from NaN). *)
Class DistanceOrder (T : TemplateArgs) : Prop := {
  dist_lt_irrefl : forall a, dist_lt a a = false;
  dist_lt_trans : forall a b c, dist_lt a b = true -> dist_lt b c = true -> dist_lt a c = true;
  dist_lt_total : forall a b, dist_lt a b = false -> dist_lt b a = false -> a = b
}.

(** [v] with the slots from [a] on replaced by the elements of [w]. *)
Definition overwrite {A} (v : list A) (a : nat) (w : list A) : list A :=
  take a v ++ w ++ drop (a + length w) v.

Section Matcher.

Context {T : TemplateArgs}.

(** A [const Scalar *]: a buffer and a position in it. *)
Record pointer : Type := {
  region : list Scalar;
  offset : Z
}.

Definition ptr_add (p : pointer) (n : Z) : pointer :=
  {| region := region p; offset := offset p + n |}.

(** *** hnswlib

    [HierarchicalNSW<DistanceType>] as the matcher uses it: the constructor
    (space, max_elements, M, ef_construction), [addPoint], [setEf] and
    [searchKnn].  [searchKnn] gives the (distance, label) pairs the library
    put in the queue it returns. *)
Class hnswlib : Type := {
  HierarchicalNSW : Type;
  new_HierarchicalNSW : SpaceInterface -> Z -> Z -> Z -> HierarchicalNSW;
  addPoint : HierarchicalNSW -> pointer -> Z -> HierarchicalNSW;
  setEf : HierarchicalNSW -> Z -> HierarchicalNSW;
  searchKnn : HierarchicalNSW -> pointer -> Z -> list (DistanceType * Z)
}.

Context {L : hnswlib}.

(** The calls made to the library, in program order. *)
Inductive hnsw_call : Type :=
  | call_new (s : SpaceInterface) (max_elements M ef_construction : Z)
  | call_addPoint (p : pointer) (label : Z)
  | call_setEf (ef : Z)
  | call_searchKnn (q : pointer) (k : Z).

Definition is_addPoint (c : hnsw_call) : bool :=
  match c with call_addPoint _ _ => true | _ => false end.

(** *** The matcher object *)
Record HNSWMatcher : Type := {
  dimension_ : Z;
  HNSW_metric_ : option SpaceInterface;
  HNSW_matcher_ : option HierarchicalNSW
}.

(** [HNSWMatcher() = default]: both owning pointers are null, [dimension_]
    is not initialised (it holds whatever [d] was in memory). *)
Definition HNSWMatcher_default (d : Z) : HNSWMatcher :=
  {| dimension_ := d; HNSW_metric_ := None; HNSW_matcher_ := None |}.

(** The [switch (MetricType)] of [Build]: the space that is constructed, or
    [None] on the branches that print "this type of feature is not handled"
    and return. *)
Definition new_metric (dimension : Z) : option SpaceInterface :=
  match MetricType with
  | L1_HNSW =>
      if ctype_eqb DistanceType_id c_int
      then Some {| space_class := L1SpaceInteger; space_dim := to_size_t dimension |}
      else None
  | L2_HNSW =>
      if ctype_eqb DistanceType_id c_int
      then Some {| space_class := L2SpaceI; space_dim := to_size_t dimension |}
      else if ctype_eqb DistanceType_id c_float
      then Some {| space_class := L2Space; space_dim := to_size_t dimension |}
      else None
  | HAMMING_HNSW =>
      if ctype_eqb DistanceType_id c_unsigned_int
      then Some {| space_class := HammingSpace_uint8; space_dim := to_size_t dimension |}
      else None
  end.

(** The metric/representation combination of this instantiation is handled
    by the switch. *)
Definition supported : bool :=
  match MetricType with
  | L1_HNSW => ctype_eqb DistanceType_id c_int
  | L2_HNSW => ctype_eqb DistanceType_id c_int || ctype_eqb DistanceType_id c_float
  | HAMMING_HNSW => ctype_eqb DistanceType_id c_unsigned_int
  end.

(** The loop [for (vector_id = 1; vector_id < nbRows; ++vector_id)] of
    [Build], its iterations run in the order [vector_ids]. *)
Fixpoint add_points (dataset : pointer) (dimension : Z) (vector_ids : list Z)
    (index : HierarchicalNSW) (calls : list hnsw_call)
    : outcome (HierarchicalNSW * list hnsw_call) :=
  match vector_ids with
  | [] => Done (index, calls)
  | vector_id :: rest =>
      off ← int_mul dimension vector_id;
      let p := ptr_add dataset off in
      add_points dataset dimension rest
        (addPoint index p (to_size_t vector_id))
        (calls ++ [call_addPoint p (to_size_t vector_id)])
  end.

(** [Build] with the iterations of its insertion loop run in the order
    [schedule]: the returned flag, the matcher afterwards and the library
    calls made.  Row 0 is inserted before the loop. *)
Definition Build_scheduled (schedule : list Z)
    (this : HNSWMatcher) (dataset : pointer) (nbRows dimension : Z)
    : outcome (bool * HNSWMatcher * list hnsw_call) :=
  if nbRows <? 1 then
    Done (false,
          {| dimension_ := dimension_ this;
             HNSW_metric_ := None;
             HNSW_matcher_ := None |},
          [])
  else
    let this :=
      {| dimension_ := dimension;
         HNSW_metric_ := HNSW_metric_ this;
         HNSW_matcher_ := HNSW_matcher_ this |} in
    match new_metric dimension with
    | None => Done (false, this, [])
    | Some space =>
        let index := new_HierarchicalNSW space (to_size_t nbRows) 16 100 in
        let index := addPoint index dataset 0 in
        '(index, calls) ← add_points dataset dimension schedule index
                            [call_new space (to_size_t nbRows) 16 100;
                             call_addPoint dataset 0];
        Done (true,
              {| dimension_ := dimension;
                 HNSW_metric_ := Some space;
                 HNSW_matcher_ := Some index |},
              calls)
    end.

(** [bool Build(const Scalar * dataset, int nbRows, int dimension)], the
    loop [for (vector_id = 1; vector_id < nbRows; ++vector_id)] in
    sequential order. *)
Definition Build (this : HNSWMatcher) (dataset : pointer) (nbRows dimension : Z)
    : outcome (bool * HNSWMatcher * list hnsw_call) :=
  Build_scheduled (seqZ 1 (nbRows - 1)) this dataset nbRows dimension.

(** *** The queue returned by [searchKnn]

    Modelled from the spec: the type of the queue is declared by hnswlib,
    outside the matcher's source.  By §3 and §4.3 results are ranked by
    distance, ties by database id: the queue is a
    [std::priority_queue<std::pair<DistanceType, labeltype>>] with the
    default comparison, whose [top()] is a greatest pair under [std::pair]'s
    [operator<].  The queue is kept in the order in which [pop()] empties it,
    so [top()] is the head and [pop()] leaves the tail. *)
Definition pair_lt (a b : DistanceType * Z) : bool :=
  dist_lt a.1 b.1 || (negb (dist_lt b.1 a.1) && (a.2 <? b.2)).

Fixpoint pq_push (x : DistanceType * Z) (q : list (DistanceType * Z))
    : list (DistanceType * Z) :=
  match q with
  | [] => [x]
  | y :: q' => if pair_lt x y then y :: pq_push x q' else x :: q
  end.

(** The queue that holds the given entries. *)
Definition priority_queue (entries : list (DistanceType * Z)) : list (DistanceType * Z) :=
  foldr pq_push [] entries.

(** [bool SearchNeighbour(const Scalar * query, int * indice,
    DistanceType * distance)]: the flag, the matcher afterwards, the two
    output cells afterwards and the library calls made. *)
Definition SearchNeighbour (this : HNSWMatcher) (query : pointer)
    (indice : Z) (distance : DistanceType)
    : outcome (bool * HNSWMatcher * Z * DistanceType * list hnsw_call) :=
  match HNSW_matcher_ this with
  | None => Done (false, this, indice, distance, [])
  | Some index =>
      let index := setEf index 16 in
      match priority_queue (searchKnn index query 1) with
      | [] => Undefined
      | result :: _ =>
          Done (true,
                {| dimension_ := dimension_ this;
                   HNSW_metric_ := HNSW_metric_ this;
                   HNSW_matcher_ := Some index |},
                to_int result.2, result.1,
                [call_setEf 16; call_searchKnn query 1])
      end
  end.

(** Modelled from the spec: [IndMatch] is declared in
    [openMVG/matching/indMatch.hpp], outside the matcher's source.  By §6 an
    output entry pairs a query position with a database id; both are
    [IndexT]s, and a value-initialised [IndMatch] is (0, 0). *)
Record IndMatch : Type := { i_ : Z; j_ : Z }.

Definition IndMatch_zero : IndMatch := {| i_ := 0; j_ := 0 |}.

(** The breadth [SearchNeighbours] passes to [setEf]. *)
Definition efSearch (NN nbQuery : Z) : Z :=
  if NN <=? 2 then 16
  else Z.max (to_size_t (NN * 2)) (to_size_t nbQuery).

(** The loop [while (!result.empty())] for one query: the top of the queue
    goes to slot [query_id * NN + result_id], then [result_id] is
    decremented. *)
Fixpoint store_results (query_id NN : Z) (result : list (DistanceType * Z))
    (result_id : Z) (indices : list IndMatch) (distances : list DistanceType)
    : outcome (list IndMatch * list DistanceType) :=
  match result with
  | [] => Done (indices, distances)
  | res :: result =>
      let match_id := to_size_t (to_size_t (to_size_t query_id * NN) + result_id) in
      indices ← vector_set indices match_id
                  {| i_ := to_IndexT query_id; j_ := to_IndexT res.2 |};
      distances ← vector_set distances match_id res.1;
      store_results query_id NN result (to_size_t (result_id - 1)) indices distances
  end.

(** The body of the loop over [query_id]. *)
Definition search_query (index : HierarchicalNSW) (query : pointer)
    (dimension NN query_id : Z)
    (indices : list IndMatch) (distances : list DistanceType)
    : outcome (list IndMatch * list DistanceType * hnsw_call) :=
  off ← int_mul dimension query_id;
  let q := ptr_add query off in
  let result := priority_queue (searchKnn index q NN) in
  '(indices, distances) ← store_results query_id NN result (to_size_t (NN - 1))
                            indices distances;
  Done (indices, distances, call_searchKnn q NN).

(** The loop over [query_id], its iterations run in the order [schedule]. *)
Fixpoint search_queries (index : HierarchicalNSW) (query : pointer)
    (dimension NN : Z) (schedule : list Z)
    (indices : list IndMatch) (distances : list DistanceType)
    (calls : list hnsw_call)
    : outcome (list IndMatch * list DistanceType * list hnsw_call) :=
  match schedule with
  | [] => Done (indices, distances, calls)
  | query_id :: rest =>
      '(indices, distances, c) ← search_query index query dimension NN query_id
                                   indices distances;
      search_queries index query dimension NN rest indices distances (calls ++ [c])
  end.

(** [SearchNeighbours] with the iterations of its loop run in the order
    [schedule]. *)
Definition SearchNeighbours_scheduled (schedule : list Z)
    (this : HNSWMatcher) (query : pointer) (nbQuery : Z)
    (pvec_indices : list IndMatch) (pvec_distances : list DistanceType) (NN : Z)
    : outcome (bool * HNSWMatcher * list IndMatch * list DistanceType * list hnsw_call) :=
  match HNSW_matcher_ this with
  | None => Done (false, this, pvec_indices, pvec_distances, [])
  | Some index =>
      let ef := efSearch NN nbQuery in
      let index := setEf index ef in
      let n := Z.to_nat (to_size_t (to_size_t nbQuery * NN)) in
      let indices := resize n IndMatch_zero pvec_indices in
      let distances := resize n DistanceType_zero pvec_distances in
      '(indices, distances, calls) ← search_queries index query (dimension_ this) NN
                                       schedule indices distances [call_setEf ef];
      Done (true,
            {| dimension_ := dimension_ this;
               HNSW_metric_ := HNSW_metric_ this;
               HNSW_matcher_ := Some index |},
            indices, distances, calls)
  end.

(** [bool SearchNeighbours(const Scalar * query, int nbQuery,
    IndMatches * pvec_indices, std::vector<DistanceType> * pvec_distances,
    size_t NN)], the loop [for (query_id = 0; query_id < nbQuery; query_id++)]
    in sequential order. *)
Definition SearchNeighbours (this : HNSWMatcher) (query : pointer) (nbQuery : Z)
    (pvec_indices : list IndMatch) (pvec_distances : list DistanceType) (NN : Z) :=
  SearchNeighbours_scheduled (seqZ 0 nbQuery) this query nbQuery
    pvec_indices pvec_distances NN.


(** *** Vocabulary of the statements below *)

(** The matchers on which no [Build] has succeeded yet. *)
Inductive never_built : HNSWMatcher -> Prop :=
  | never_built_default d : never_built (HNSWMatcher_default d)
  | never_built_failed this dataset nbRows dimension this' calls :
      never_built this ->
      Build this dataset nbRows dimension = Done (false, this', calls) ->
      never_built this'.

(** [pop()] empties a queue from the greatest pair down. *)
Definition descending (q : list (DistanceType * Z)) : Prop :=
  StronglySorted (fun x y => pair_lt x y = false) q.

(** The entry written for a result of query [query_id]. *)
Definition match_of (query_id : Z) (res : DistanceType * Z) : IndMatch :=
  {| i_ := to_IndexT query_id; j_ := to_IndexT res.2 |}.

(** The neighbours the library finds for query [query_id], nearest first:
    the queue [searchKnn] returns, read from its bottom to its top. *)
Definition neighbours (index : HierarchicalNSW) (query : pointer)
    (dimension NN query_id : Z) : list (DistanceType * Z) :=
  reverse (priority_queue (searchKnn index (ptr_add query (dimension * query_id)) NN)).

(** The first slot that the results of query [query_id] occupy. *)
Definition first_slot (index : HierarchicalNSW) (query : pointer)
    (dimension NN query_id : Z) : nat :=
  (Z.to_nat (query_id * NN + NN)
   - length (neighbours index query dimension NN query_id))%nat.

(** The vector after the iterations [schedule], each writing the entries
    [f query_id] makes of its neighbours. *)
Definition write_all {X} (index : HierarchicalNSW) (query : pointer)
    (dimension NN : Z) (f : Z -> DistanceType * Z -> X) (schedule : list Z)
    (v : list X) : list X :=
  foldl (fun v i => overwrite v (first_slot index query dimension NN i)
                      (f i <$> neighbours index query dimension NN i))
        v schedule.

(** Block [query_id] of an output vector: its [NN] slots from
    [query_id * NN] on. *)
Definition block_of {X} (NN query_id : Z) (v : list X) : list X :=
  take (Z.to_nat NN) (drop (Z.to_nat (query_id * NN)) v).

(** The calls of [SearchNeighbours] that stay within what C++ defines: the
    matcher owns [index]; [NN] is a [size_t] and [nbQuery] a non-negative
    [int]; the [nbQuery * NN] output slots and the query offsets do not
    overflow; and the library returns at most [NN] results per query, as
    [searchKnn(query, k)] promises. *)
Definition batch_defined (this : HNSWMatcher) (index : HierarchicalNSW)
    (query : pointer) (nbQuery NN : Z) : Prop :=
  HNSW_matcher_ this = Some index /\
  0 <= NN < SIZE_MODULUS /\
  0 <= nbQuery <= INT_MAX /\
  nbQuery * NN < SIZE_MODULUS /\
  (forall i, 0 <= i < nbQuery -> is_int (dimension_ this * i)) /\
  (forall i, 0 <= i < nbQuery ->
     Z.of_nat (length (searchKnn (setEf index (efSearch NN nbQuery))
                                 (ptr_add query (dimension_ this * i)) NN)) <= NN).

(** The output vectors once [resize]d, before the loop. *)
Definition resized {X} (nbQuery NN : Z) (zero : X) (v : list X) : list X :=
  resize (Z.to_nat (to_size_t (to_size_t nbQuery * NN))) zero v.

(** The neighbours [SearchNeighbours] finds for query [i], nearest first:
    those of the owned index once its breadth is set. *)
Definition found (this : HNSWMatcher) (index : HierarchicalNSW) (query : pointer)
    (nbQuery NN i : Z) : list (DistanceType * Z) :=
  neighbours (setEf index (efSearch NN nbQuery)) query (dimension_ this) NN i.

(** The matcher after a batch. *)
Definition searched (this : HNSWMatcher) (index : HierarchicalNSW) (nbQuery NN : Z)
    : HNSWMatcher :=
  {| dimension_ := dimension_ this;
     HNSW_metric_ := HNSW_metric_ this;
     HNSW_matcher_ := Some (setEf index (efSearch NN nbQuery)) |}.

(** The matcher after [SearchNeighbour]. *)
Definition searched_one (this : HNSWMatcher) (index : HierarchicalNSW) : HNSWMatcher :=
  {| dimension_ := dimension_ this;
     HNSW_metric_ := HNSW_metric_ this;
     HNSW_matcher_ := Some (setEf index 16) |}.

(** A call of one of the two search functions, with its arguments. *)
Inductive query_call : Type :=
  | do_SearchNeighbour (query : pointer) (indice : Z) (distance : DistanceType)
  | do_SearchNeighbours (query : pointer) (nbQuery : Z)
      (pvec_indices : list IndMatch) (pvec_distances : list DistanceType) (NN : Z).

(** The matcher after one call. *)
Definition run_query (this : HNSWMatcher) (c : query_call) : outcome HNSWMatcher :=
  match c with
  | do_SearchNeighbour query indice distance =>
      '(_, this', _, _, _) ← SearchNeighbour this query indice distance;
      Done this'
  | do_SearchNeighbours query nbQuery pvec_indices pvec_distances NN =>
      '(_, this', _, _, _) ← SearchNeighbours this query nbQuery
                               pvec_indices pvec_distances NN;
      Done this'
  end.

(** The matcher after a sequence of calls. *)
Fixpoint run_queries (this : HNSWMatcher) (cs : list query_call) : outcome HNSWMatcher :=
  match cs with
  | [] => Done this
  | c :: rest => this' ← run_query this c; run_queries this' rest
  end.

(** The contract of [setEf] that repeated searches rely on.  [setEf] is a
    member of hnswlib's [HierarchicalNSW], outside the matcher's source; by
    spec §4.3 the breadth is a parameter of the search and nothing else:
    setting it replaces the value set before and leaves the graph alone, so
    setting it twice is setting the last value. *)
Class setEf_overwrites : Prop :=
  setEf_setEf : forall (index : HierarchicalNSW) a b,
    setEf (setEf index a) b = setEf index b.

(** The matcher owns the index [index], up to its breadth. *)
Definition owns_up_to_ef (this0 : HNSWMatcher) (index : HierarchicalNSW)
    (this : HNSWMatcher) : Prop :=
  dimension_ this = dimension_ this0 /\
  HNSW_metric_ this = HNSW_metric_ this0 /\
  exists index', HNSW_matcher_ this = Some index'
                 /\ forall ef, setEf index' ef = setEf index ef.

End Matcher.

Arguments pointer {T}.
Arguments hnswlib T : clear implicits.
Arguments HNSWMatcher {T L}.
Arguments hnsw_call {T}.

(** *** The states of a matcher in use *)
Section MatcherStates.

Context {T : TemplateArgs} {L : hnswlib T}.

(** The matchers a program can hold: a default-constructed one, and what
    any call of [Build], [SearchNeighbour] or [SearchNeighbours] that returns
    leaves behind; the insertion loop of [Build] may have run its iterations
    in any order. *)
Inductive reachable : HNSWMatcher -> Prop :=
  | reachable_default d : reachable (HNSWMatcher_default d)
  | reachable_Build this schedule dataset nbRows dimension ok this' calls :
      reachable this ->
      Permutation schedule (seqZ 1 (nbRows - 1)) ->
      Build_scheduled schedule this dataset nbRows dimension = Done (ok, this', calls) ->
      reachable this'
  | reachable_query this c this' :
      reachable this ->
      run_query this c = Done this' ->
      reachable this'.

(** A library call that a search may make: setting the breadth, or a
    search. *)
Definition is_search_call (c : hnsw_call) : bool :=
  match c with
  | call_setEf _ | call_searchKnn _ _ => true
  | call_new _ _ _ _ | call_addPoint _ _ => false
  end.

(** What a search that returns [ok] and made the library calls [calls]
    leaves of the matcher. *)
Definition search_frame (this this' : HNSWMatcher) (ok : bool)
    (calls : list hnsw_call) : Prop :=
  dimension_ this' = dimension_ this
  /\ HNSW_metric_ this' = HNSW_metric_ this
  /\ (HNSW_matcher_ this' = None <-> HNSW_matcher_ this = None)
  /\ (ok = false <-> HNSW_matcher_ this = None)
  /\ Forall (fun c => is_search_call c = true) calls.

End MatcherStates.

(** ** An exhaustive-search library

    Modelled from the spec: hnswlib's [HierarchicalNSW] lives in
    [third_party/hnswlib], outside the matcher's source.  This instance is
    the exact brute-force variant of the same contract (spec §1, §4.3): the
    index stores the inserted descriptors with their labels, and [searchKnn]
    returns the [k] stored points closest to the query (all of them when
    fewer than [k] are stored) under the distance of the index's space.
    Descriptors are integer-valued ([Scalar] and [DistanceType] are both
    [Z]); it serves as the concrete library of the examples below. *)
Module Exhaustive.

Definition args (M : HNSWMETRIC) (id : ctype) : TemplateArgs :=
  {| Scalar := Z;
     DistanceType := Z;
     DistanceType_id := id;
     MetricType := M;
     DistanceType_zero := 0;
     dist_lt := Z.ltb |}.

Record index : Type := {
  ix_space : SpaceInterface;
  ix_max_elements : Z;
  ix_M : Z;
  ix_ef_construction : Z;
  ix_ef : Z;
  ix_points : list (Z * list Z)
}.

Section Ops.
Context {M : HNSWMETRIC} {id : ctype}.
Abbreviation ptr := (@pointer (args M id)).

(** The [dim] components a pointer designates. *)
Definition read (p : ptr) (dim : Z) : list Z :=
  take (Z.to_nat dim) (drop (Z.to_nat (offset p)) (region p)).

Definition popcount8 (z : Z) : Z :=
  Z.of_nat (length (filter (fun b => Z.testbit z b = true) (seqZ 0 8))).

Definition sumZ (l : list Z) : Z := foldr Z.add 0 l.

Definition distance (c : SpaceClass) (a b : list Z) : Z :=
  match c with
  | L1SpaceInteger => sumZ (zip_with (fun x y => Z.abs (x - y)) a b)
  | L2SpaceI | L2Space => sumZ (zip_with (fun x y => (x - y) * (x - y)) a b)
  | HammingSpace_uint8 => sumZ (zip_with (fun x y => popcount8 (Z.lxor x y)) a b)
  end.

Definition create (s : SpaceInterface) (max_elements m ef_construction : Z) : index :=
  {| ix_space := s; ix_max_elements := max_elements; ix_M := m;
     ix_ef_construction := ef_construction; ix_ef := 10; ix_points := [] |}.

Definition add (ix : index) (p : ptr) (label : Z) : index :=
  {| ix_space := ix_space ix; ix_max_elements := ix_max_elements ix;
     ix_M := ix_M ix; ix_ef_construction := ix_ef_construction ix;
     ix_ef := ix_ef ix;
     ix_points := ix_points ix ++ [(label, read p (space_dim (ix_space ix)))] |}.

Definition set_ef (ix : index) (ef : Z) : index :=
  {| ix_space := ix_space ix; ix_max_elements := ix_max_elements ix;
     ix_M := ix_M ix; ix_ef_construction := ix_ef_construction ix;
     ix_ef := ef; ix_points := ix_points ix |}.

(** All stored points with their distance to the query, farthest first,
    cut down to the [k] nearest. *)
Definition search (ix : index) (q : ptr) (k : Z) : list (Z * Z) :=
  let s := ix_space ix in
  let qv := read q (space_dim s) in
  let all := @priority_queue (args M id)
               (map (fun lv => (distance (space_class s) qv lv.2, lv.1)) (ix_points ix)) in
  drop (length all - Z.to_nat k)%nat all.

#[export] Instance lib : hnswlib (args M id) :=
  {| HierarchicalNSW := index;
     new_HierarchicalNSW := create;
     addPoint := add;
     setEf := set_ef;
     searchKnn := search |}.

End Ops.

End Exhaustive.

(** ** The worked example

    The four descriptors (0,0,0,0), (1,0,0,0), (0,1,0,0), (5,5,0,0) (the
    points of spec §8, padded to four components) under squared L2 over
    integers, searched with the exhaustive library; two queries,
    (3,4,0,0) and (1,1,0,0); and the same data handed to a Hamming matcher
    whose distance type is [int], a pairing the switch of [Build] does not
    handle. *)
Definition descriptors (M : HNSWMETRIC) (id : ctype) : @pointer (Exhaustive.args M id) :=
  @Build_pointer (Exhaustive.args M id) [0; 0; 0; 0; 1; 0; 0; 0; 0; 1; 0; 0; 5; 5; 0; 0] 0.

Definition two_queries (M : HNSWMETRIC) (id : ctype) : @pointer (Exhaustive.args M id) :=
  @Build_pointer (Exhaustive.args M id) [3; 4; 0; 0; 1; 1; 0; 0] 0.

Definition fresh (M : HNSWMETRIC) (id : ctype)
    : @HNSWMatcher (Exhaustive.args M id) Exhaustive.lib :=
  HNSWMatcher_default 7.

(** The matcher after [Build(descriptors, nbRows, 4)] on a fresh one. *)
Definition built (M : HNSWMETRIC) (id : ctype) (nbRows : Z)
    : @HNSWMatcher (Exhaustive.args M id) Exhaustive.lib :=
  match Build (fresh M id) (descriptors M id) nbRows 4 with
  | Done (_, this, _) => this
  | Undefined => fresh M id
  end.

(** The index the built matcher owns. *)
Definition built_index (M : HNSWMETRIC) (id : ctype) (nbRows : Z) : Exhaustive.index :=
  match HNSW_matcher_ (built M id nbRows) with
  | Some index => index
  | None => Exhaustive.create {| space_class := L2Space; space_dim := 0 |} 0 0 0
  end.

(** ** Writing a PLY file: [Save_PLY] of [sfm_data_io_ply.hpp]

    The function reads an [SfM_Data] through accessors declared in
    [sfm_data.hpp] and writes one file through a [std::ofstream].  The
    accessors are an interface here; the file is the sequence of what is
    inserted in the stream, insertion by insertion (how a [double] prints,
    and the bytes of a [Vec3], are not looked into). *)

(** The character ['\n']. *)
Definition nl : string := String (ascii_of_nat 10) EmptyString.

Section Streams.

Context {double Vec3 : Type}.

(** One insertion in an output stream. *)
Inductive insertion : Type :=
  | set_fixed_precision (digits : Z)  (* << std::fixed << std::setprecision(digits) *)
  | put_text (s : string)             (* << of a string literal or of a char *)
  | put_size (n : Z)                  (* << of a size_t *)
  | put_double (x : double)           (* << of a double *)
  | write_Vec3 (v : Vec3)             (* write(v.data(), sizeof(Vec3)) *)
  | write_Vec3uc (r g b : Z).         (* write(Vec3uc(r, g, b).data(), sizeof(Vec3uc)) *)

(** The parts of [sfm_data.hpp], [sfm_view_priors.hpp] and
    [sfm_landmark.hpp] that [Save_PLY] uses.  The three maps are given as
    the lists of their entries in key order; [as_ViewPriors] is
    [dynamic_cast<sfm::ViewPriors*>]; [coord v i] is [v(i)]. *)
Class sfm_data_h : Type := {
  SfM_Data : Type;
  View : Type;
  ViewPriors : Type;
  Pose3 : Type;
  Landmark : Type;
  GetViews : SfM_Data -> list (Z * View);
  GetLandmarks : SfM_Data -> list (Z * Landmark);
  GetControl_Points : SfM_Data -> list (Z * Landmark);
  IsPoseAndIntrinsicDefined : SfM_Data -> View -> bool;
  GetPoseOrDie : SfM_Data -> View -> Pose3;
  center : Pose3 -> Vec3;
  as_ViewPriors : View -> option ViewPriors;
  b_use_pose_center_ : ViewPriors -> bool;
  pose_center_ : ViewPriors -> Vec3;
  X : Landmark -> Vec3;
  coord : Vec3 -> Z -> double
}.

Context {H : sfm_data_h}.

(** The enumerators of [ESfM_Data] that [Save_PLY] tests
    ([sfm_data_io.hpp]). *)
Variables (STRUCTURE CONTROL_POINTS EXTRINSICS : Z).

(** [(flags_part & FLAG) == FLAG]. *)
Definition has_flag (flags_part FLAG : Z) : bool :=
  Z.land flags_part FLAG =? FLAG.

(** The first loop over the views: [view_with_pose_count], an [IndexT]
    increased by the [bool] of each view. *)
Definition count_views_with_pose (sfm_data : SfM_Data) : Z :=
  foldl (fun count view =>
           to_IndexT (count + Z.b2z (IsPoseAndIntrinsicDefined sfm_data view.2)))
        0 (GetViews sfm_data).

(** The second loop over the views: [view_with_pose_prior_count]. *)
Definition count_views_with_pose_prior (sfm_data : SfM_Data) : Z :=
  foldl (fun count view =>
           match as_ViewPriors view.2 with
           | Some prior => to_IndexT (count + Z.b2z (b_use_pose_center_ prior))
           | None => count
           end)
        0 (GetViews sfm_data).

(** What the loop over the views writes for one view: the pose as a green
    point, then the pose prior as a blue point. *)
Definition write_view (sfm_data : SfM_Data) (b_write_in_ascii : bool) (view : Z * View)
    : list insertion :=
  (if IsPoseAndIntrinsicDefined sfm_data view.2 then
     let pose := GetPoseOrDie sfm_data view.2 in
     if b_write_in_ascii then
       [put_double (coord (center pose) 0); put_text " ";
        put_double (coord (center pose) 1); put_text " ";
        put_double (coord (center pose) 2); put_text " ";
        put_text ("0 255 0" ++ nl)%string]
     else
       [write_Vec3 (center pose); write_Vec3uc 0 255 0]
   else [])
  ++
  match as_ViewPriors view.2 with
  | Some prior =>
      if b_use_pose_center_ prior then
        if b_write_in_ascii then
          [put_double (coord (pose_center_ prior) 0); put_text " ";
           put_double (coord (pose_center_ prior) 1); put_text " ";
           put_double (coord (pose_center_ prior) 2); put_text " ";
           put_text ("0 0 255" ++ nl)%string]
        else
          [write_Vec3 (pose_center_ prior); write_Vec3uc 0 0 255]
      else []
  | None => []
  end.

(** [bool Save_PLY(const SfM_Data & sfm_data, const std::string & filename,
    ESfM_Data flags_part, bool b_write_in_ascii)].  [opens] tells whether
    the stream could be created, [good] is [stream.good()] after the flush.
    The result is the returned flag and, when the stream was created, what
    was inserted in it. *)
Definition Save_PLY (opens good : bool) (sfm_data : SfM_Data) (filename : string)
    (flags_part : Z) (b_write_in_ascii : bool) : bool * option (list insertion) :=
  let b_structure := has_flag flags_part STRUCTURE in
  let b_control_points := has_flag flags_part CONTROL_POINTS in
  let b_extrinsics := has_flag flags_part EXTRINSICS in
  if negb (b_structure || b_extrinsics || b_control_points) then (false, None)
  else if negb opens then (false, None)
  else
    let view_with_pose_count :=
      if b_extrinsics then count_views_with_pose sfm_data else 0 in
    let view_with_pose_prior_count :=
      if b_extrinsics then count_views_with_pose_prior sfm_data else 0 in
    let header :=
      [set_fixed_precision (15 + 1);
       put_text "ply"; put_text nl;
       put_text "format ";
       put_text (if b_write_in_ascii then "ascii 1.0" else "binary_little_endian 1.0");
       put_text nl; put_text "comment generated by OpenMVG";
       put_text nl; put_text "element vertex ";
       put_size (to_size_t
                   ((if b_structure
                     then Z.of_nat (length (GetLandmarks sfm_data)) else 0)
                    + (if b_control_points
                       then Z.of_nat (length (GetControl_Points sfm_data)) else 0)
                    + view_with_pose_count
                    + view_with_pose_prior_count));
       put_text nl; put_text "property double x";
       put_text nl; put_text "property double y";
       put_text nl; put_text "property double z";
       put_text nl; put_text "property uchar red";
       put_text nl; put_text "property uchar green";
       put_text nl; put_text "property uchar blue";
       put_text nl; put_text "end_header"; put_text nl] in
    let poses :=
      if b_extrinsics
      then concat (write_view sfm_data b_write_in_ascii <$> GetViews sfm_data)
      else [] in
    let structure :=
      if b_structure then
        concat ((fun iterLandmarks : Z * Landmark =>
                   if b_write_in_ascii then
                     [put_double (coord (X iterLandmarks.2) 0); put_text " ";
                      put_double (coord (X iterLandmarks.2) 1); put_text " ";
                      put_double (coord (X iterLandmarks.2) 2); put_text " ";
                      put_text ("255 255 255" ++ nl)%string]
                   else
                     [write_Vec3 (X iterLandmarks.2); write_Vec3uc 255 255 255])
                  <$> GetLandmarks sfm_data)
      else [] in
    let control_points :=
      if b_control_points then
        concat ((fun iterGCP : Z * Landmark =>
                   if b_write_in_ascii then
                     [put_double (coord (X iterGCP.2) 0); put_text " ";
                      put_double (coord (X iterGCP.2) 1); put_text " ";
                      put_double (coord (X iterGCP.2) 2); put_text " ";
                      put_text ("255 0 0" ++ nl)%string]
                   else
                     [write_Vec3 (X iterGCP.2); write_Vec3uc 255 0 0])
                  <$> GetControl_Points sfm_data)
      else [] in
    (good, Some (header ++ poses ++ structure ++ control_points)).

(** *** Vocabulary: a PLY file as a header and vertices *)

(** The header of a PLY file that declares [n] vertices. *)
Definition ply_header (b_write_in_ascii : bool) (n : Z) : list insertion :=
  [set_fixed_precision 16;
   put_text "ply"; put_text nl;
   put_text "format ";
   put_text (if b_write_in_ascii then "ascii 1.0" else "binary_little_endian 1.0");
   put_text nl; put_text "comment generated by OpenMVG";
   put_text nl; put_text "element vertex "; put_size n;
   put_text nl; put_text "property double x";
   put_text nl; put_text "property double y";
   put_text nl; put_text "property double z";
   put_text nl; put_text "property uchar red";
   put_text nl; put_text "property uchar green";
   put_text nl; put_text "property uchar blue";
   put_text nl; put_text "end_header"; put_text nl].

(** One vertex: a point and a colour, as a line of text or as 24 + 3
    bytes. *)
Record ply_vertex : Type := {
  vertex_point : Vec3;
  vertex_red : Z;
  vertex_green : Z;
  vertex_blue : Z;
  vertex_colour_text : string
}.

Definition put_vertex (b_write_in_ascii : bool) (v : ply_vertex) : list insertion :=
  if b_write_in_ascii then
    [put_double (coord (vertex_point v) 0); put_text " ";
     put_double (coord (vertex_point v) 1); put_text " ";
     put_double (coord (vertex_point v) 2); put_text " ";
     put_text (vertex_colour_text v ++ nl)%string]
  else
    [write_Vec3 (vertex_point v);
     write_Vec3uc (vertex_red v) (vertex_green v) (vertex_blue v)].

Definition green (p : Vec3) : ply_vertex :=
  {| vertex_point := p; vertex_red := 0; vertex_green := 255; vertex_blue := 0;
     vertex_colour_text := "0 255 0" |}.
Definition blue (p : Vec3) : ply_vertex :=
  {| vertex_point := p; vertex_red := 0; vertex_green := 0; vertex_blue := 255;
     vertex_colour_text := "0 0 255" |}.
Definition white (p : Vec3) : ply_vertex :=
  {| vertex_point := p; vertex_red := 255; vertex_green := 255; vertex_blue := 255;
     vertex_colour_text := "255 255 255" |}.
Definition red (p : Vec3) : ply_vertex :=
  {| vertex_point := p; vertex_red := 255; vertex_green := 0; vertex_blue := 0;
     vertex_colour_text := "255 0 0" |}.

(** The vertices of one view: its pose centre in green when the pose is
    defined, its prior centre in blue when the view has a prior in use. *)
Definition view_vertices (sfm_data : SfM_Data) (view : Z * View) : list ply_vertex :=
  (if IsPoseAndIntrinsicDefined sfm_data view.2
   then [green (center (GetPoseOrDie sfm_data view.2))] else [])
  ++
  match as_ViewPriors view.2 with
  | Some prior => if b_use_pose_center_ prior then [blue (pose_center_ prior)] else []
  | None => []
  end.

(** The vertices of the file in the order in which they are written: those
    of the views, then the landmarks in white, then the control points in
    red, each group when its flag is set. *)
Definition ply_vertices (sfm_data : SfM_Data) (flags_part : Z) : list ply_vertex :=
  (if has_flag flags_part EXTRINSICS
   then concat (view_vertices sfm_data <$> GetViews sfm_data) else [])
  ++ (if has_flag flags_part STRUCTURE
      then (fun iterLandmarks : Z * Landmark => white (X iterLandmarks.2))
             <$> GetLandmarks sfm_data
      else [])
  ++ (if has_flag flags_part CONTROL_POINTS
      then (fun iterGCP : Z * Landmark => red (X iterGCP.2))
             <$> GetControl_Points sfm_data
      else []).

End Streams.

Arguments insertion : clear implicits.
Arguments sfm_data_h : clear implicits.
Arguments ply_vertex : clear implicits.

(** *** A small scene

    A concrete [SfM_Data] for the examples: points are triples of integers, a
    view is its pose centre (when the pose is defined) and its prior (the
    flag [b_use_pose_center_] and the prior centre, when the view is a
    [ViewPriors]); the scene is the three maps. *)
Definition point : Type := Z * Z * Z.

Record scene : Type := {
  scene_views : list (Z * (option point * option (bool * point)));
  scene_landmarks : list (Z * point);
  scene_control_points : list (Z * point)
}.

#[export] Instance scene_h : sfm_data_h Z point :=
  {| SfM_Data := scene;
     View := option point * option (bool * point);
     ViewPriors := bool * point;
     Pose3 := point;
     Landmark := point;
     GetViews := scene_views;
     GetLandmarks := scene_landmarks;
     GetControl_Points := scene_control_points;
     IsPoseAndIntrinsicDefined := fun _ view => bool_decide (is_Some view.1);
     GetPoseOrDie := fun _ view => default (0, 0, 0) view.1;
     center := fun pose => pose;
     as_ViewPriors := fun view => view.2;
     b_use_pose_center_ := fun prior => prior.1;
     pose_center_ := fun prior => prior.2;
     X := fun landmark => landmark;
     coord := fun v i => if i =? 0 then v.1.1 else if i =? 1 then v.1.2 else v.2 |}.

(** Two views, the first with a pose at the origin and a prior in use at
    (1,1,1), the second a plain view without pose; one landmark and one
    control point. *)
Definition small_scene : scene :=
  {| scene_views := [(0, (Some (0, 0, 0), Some (true, (1, 1, 1)))); (1, (None, None))];
     scene_landmarks := [(0, (2, 3, 4))];
     scene_control_points := [(0, (5, 6, 7))] |}.

(** ** Basic facts about the scalar types and the exhaustive library *)

Lemma in_int_spec z : in_int z = true <-> is_int z.
Proof. unfold in_int, is_int. rewrite andb_true_iff, !Z.leb_le. tauto. Qed.

Lemma to_size_t_id z : is_size_t z -> to_size_t z = z.
Proof. intros H. unfold to_size_t. apply Z.mod_small. exact H. Qed.

Lemma to_size_t_range z : is_size_t (to_size_t z).
Proof. unfold is_size_t, to_size_t, SIZE_MODULUS. apply Z.mod_pos_bound. lia. Qed.

Lemma to_IndexT_id z : 0 <= z < 2 ^ 32 -> to_IndexT z = z.
Proof. intros H. unfold to_IndexT. apply Z.mod_small. exact H. Qed.

Lemma Exhaustive_order M id : DistanceOrder (Exhaustive.args M id).
Proof.
  split; simpl.
  - intros a. apply Z.ltb_irrefl.
  - intros a b c. rewrite !Z.ltb_lt. lia.
  - intros a b. rewrite !Z.ltb_ge. lia.
Qed.

Lemma Exhaustive_search_length M id (ix : Exhaustive.index) (q : @pointer (Exhaustive.args M id)) k :
  0 <= k -> (length (Exhaustive.search ix q k) <= Z.to_nat k)%nat.
Proof.
  intros Hk. unfold Exhaustive.search. cbv zeta. rewrite length_drop.
  simpl. generalize (Z.to_nat k). intros n.
  match goal with |- context [length ?l] => generalize (length l) end.
  intros m. lia.
Qed.

Lemma Exhaustive_set_ef_set_ef (ix : Exhaustive.index) a b : Exhaustive.set_ef (Exhaustive.set_ef ix a) b = Exhaustive.set_ef ix b.
Proof. reflexivity. Qed.

(** ** Properties of [Build] *)
Section BuildFacts.

Context {T : TemplateArgs} {L : hnswlib T}.

Lemma new_metric_supported dimension :
  supported = true ->
  exists c, new_metric dimension = Some {| space_class := c; space_dim := to_size_t dimension |}.
Proof.
  unfold supported, new_metric.
  destruct MetricType; repeat (destruct (ctype_eqb _ _)); simpl; intros H;
    try discriminate H; eauto.
Qed.

Lemma new_metric_unsupported dimension :
  supported = false -> new_metric dimension = None.
Proof.
  unfold supported, new_metric.
  destruct MetricType; repeat (destruct (ctype_eqb _ _)); simpl; intros H;
    try discriminate H; reflexivity.
Qed.

Lemma supported_of_new_metric dimension :
  new_metric dimension = None -> supported = false.
Proof.
  intros H. destruct supported eqn:E; [|reflexivity].
  destruct (new_metric_supported dimension E) as [c Hc]. congruence.
Qed.

Lemma int_mul_Done a b : is_int (a * b) -> int_mul a b = Done (a * b).
Proof. intros H. unfold int_mul. apply in_int_spec in H. rewrite H. reflexivity. Qed.

(** The insertion loop runs to its end when no offset overflows [int]. *)
Lemma add_points_Done (dataset : pointer) dimension vector_ids :
  forall index calls,
  Forall (fun vector_id => is_int (dimension * vector_id)) vector_ids ->
  add_points dataset dimension vector_ids index calls =
  Done (foldl (fun ix vector_id =>
                 addPoint ix (ptr_add dataset (dimension * vector_id)) (to_size_t vector_id))
              index vector_ids,
        calls ++ map (fun vector_id =>
                        call_addPoint (ptr_add dataset (dimension * vector_id))
                                      (to_size_t vector_id))
                     vector_ids).
Proof.
  induction vector_ids as [|v rest IH]; intros index calls Hall; simpl.
  - rewrite app_nil_r. reflexivity.
  - inversion Hall as [|? ? Hv Hrest]; subst.
    rewrite (int_mul_Done _ _ Hv). simpl.
    rewrite IH by assumption. rewrite <- app_assoc. reflexivity.
Qed.

Lemma Build_empty (this : HNSWMatcher) dataset nbRows dimension :
  nbRows < 1 ->
  Build this dataset nbRows dimension =
  Done (false,
        {| dimension_ := dimension_ this; HNSW_metric_ := None; HNSW_matcher_ := None |},
        []).
Proof.
  intros H. unfold Build, Build_scheduled. apply Z.ltb_lt in H. rewrite H. reflexivity.
Qed.

Lemma Build_unsupported (this : HNSWMatcher) dataset nbRows dimension :
  1 <= nbRows -> supported = false ->
  Build this dataset nbRows dimension =
  Done (false,
        {| dimension_ := dimension;
           HNSW_metric_ := HNSW_metric_ this;
           HNSW_matcher_ := HNSW_matcher_ this |},
        []).
Proof.
  intros Hn Hs. unfold Build, Build_scheduled.
  destruct (nbRows <? 1) eqn:E; [apply Z.ltb_lt in E; lia|].
  rewrite (new_metric_unsupported _ Hs). reflexivity.
Qed.

(** A successful [Build]: the space of the switch, the fresh index with
    every row inserted under its position, in order. *)
Lemma Build_supported (this : HNSWMatcher) dataset nbRows dimension space :
  1 <= nbRows ->
  new_metric dimension = Some space ->
  Forall (fun vector_id => is_int (dimension * vector_id)) (seqZ 1 (nbRows - 1)) ->
  Build this dataset nbRows dimension =
  Done (true,
        {| dimension_ := dimension;
           HNSW_metric_ := Some space;
           HNSW_matcher_ :=
             Some (foldl (fun ix vector_id =>
                            addPoint ix (ptr_add dataset (dimension * vector_id))
                                     (to_size_t vector_id))
                         (addPoint (new_HierarchicalNSW space (to_size_t nbRows) 16 100)
                                   dataset 0)
                         (seqZ 1 (nbRows - 1))) |},
        [call_new space (to_size_t nbRows) 16 100; call_addPoint dataset 0]
        ++ map (fun vector_id =>
                  call_addPoint (ptr_add dataset (dimension * vector_id))
                                (to_size_t vector_id))
               (seqZ 1 (nbRows - 1))).
Proof.
  intros Hn Hs Hall. unfold Build, Build_scheduled.
  destruct (nbRows <? 1) eqn:E; [apply Z.ltb_lt in E; lia|].
  rewrite Hs. rewrite add_points_Done by assumption. reflexivity.
Qed.

(** What a failed [Build] can be. *)
Lemma Build_false_inv (this : HNSWMatcher) dataset nbRows dimension this' calls :
  Build this dataset nbRows dimension = Done (false, this', calls) ->
  calls = [] /\
  ((nbRows < 1 /\
    this' = {| dimension_ := dimension_ this;
               HNSW_metric_ := None; HNSW_matcher_ := None |})
   \/
   (1 <= nbRows /\ supported = false /\
    this' = {| dimension_ := dimension;
               HNSW_metric_ := HNSW_metric_ this;
               HNSW_matcher_ := HNSW_matcher_ this |})).
Proof.
  unfold Build, Build_scheduled. destruct (nbRows <? 1) eqn:E.
  - apply Z.ltb_lt in E. intros [= <- <-]. split; [reflexivity|]. left. auto.
  - apply Z.ltb_ge in E. destruct (new_metric dimension) as [space|] eqn:Hs.
    + destruct (add_points _ _ _ _ _) as [[index calls']|]; simpl; intros H;
        discriminate H.
    + intros [= <- <-]. split; [reflexivity|]. right.
      split; [lia|]. split; [|reflexivity].
      eapply supported_of_new_metric; eassumption.
Qed.


Lemma never_built_no_index this :
  never_built this -> HNSW_matcher_ this = None /\ HNSW_metric_ this = None.
Proof.
  induction 1 as [d|this dataset nbRows dimension this' calls _ [IH1 IH2] HB].
  - split; reflexivity.
  - apply Build_false_inv in HB. destruct HB as [_ [[_ ->]|(_ & _ & ->)]]; simpl; auto.
Qed.

End BuildFacts.

(** ** The queue order *)
Section QueueFacts.

Context {T : TemplateArgs} {O : DistanceOrder T}.

Lemma dist_lt_asym a b : dist_lt a b = true -> dist_lt b a = false.
Proof.
  intros H. destruct (dist_lt b a) eqn:E; [|reflexivity].
  pose proof (dist_lt_trans _ _ _ H E) as C. rewrite dist_lt_irrefl in C. discriminate C.
Qed.

(** Two distances compare in exactly one of three ways. *)
Lemma dist_trichotomy a b :
  (dist_lt a b = true /\ dist_lt b a = false) \/
  (a = b /\ dist_lt a b = false /\ dist_lt b a = false) \/
  (dist_lt b a = true /\ dist_lt a b = false).
Proof.
  destruct (dist_lt a b) eqn:E1.
  - left. split; [reflexivity|]. apply dist_lt_asym. exact E1.
  - destruct (dist_lt b a) eqn:E2.
    + right. right. split; reflexivity.
    + right. left. split; [apply dist_lt_total; assumption|]. split; reflexivity.
Qed.

Lemma pair_lt_asym x y : pair_lt x y = true -> pair_lt y x = false.
Proof.
  destruct x as [a i], y as [b j]. unfold pair_lt. simpl.
  destruct (dist_trichotomy a b) as [[H1 H2]|[(-> & H1 & H2)|[H1 H2]]];
    rewrite ?H1, ?H2; simpl; try reflexivity; try discriminate.
  rewrite Z.ltb_lt. intros Hij. apply Z.ltb_ge. lia.
Qed.

(** "Not less than" is transitive: the order is total. *)
Lemma pair_ge_trans x y z :
  pair_lt x y = false -> pair_lt y z = false -> pair_lt x z = false.
Proof.
  destruct x as [a i], y as [b j], z as [c k]. unfold pair_lt. simpl.
  destruct (dist_trichotomy a b) as [[H1 H2]|[(-> & H1 & H2)|[H1 H2]]];
    rewrite ?H1, ?H2; simpl; try discriminate.
  - destruct (dist_trichotomy b c) as [[H3 H4]|[(-> & H3 & H4)|[H3 H4]]];
      rewrite ?H3, ?H4, ?H1, ?H2; simpl; try discriminate.
    + rewrite !Z.ltb_ge. lia.
    + intros _ _. reflexivity.
  - destruct (dist_trichotomy b c) as [[H3 H4]|[(-> & H3 & H4)|[H3 H4]]];
      rewrite ?H3, ?H4, ?H1, ?H2; simpl; try discriminate.
    + intros _ _. reflexivity.
    + intros _ _.
      rewrite (dist_lt_asym _ _ (dist_lt_trans _ _ _ H3 H1)).
      rewrite (dist_lt_trans _ _ _ H3 H1). reflexivity.
Qed.


Lemma pq_push_elem x q y : y ∈ pq_push x q -> y = x \/ y ∈ q.
Proof.
  induction q as [|z q IH]; simpl.
  - intros H. apply list_elem_of_singleton in H. auto.
  - destruct (pair_lt x z).
    + intros H. apply elem_of_cons in H. destruct H as [->|H].
      * right. left.
      * destruct (IH H) as [->|H']; [auto|]. right. right. exact H'.
    + intros H. apply elem_of_cons in H. destruct H as [->|H]; auto.
Qed.

Lemma pq_push_descending x q : descending q -> descending (pq_push x q).
Proof.
  unfold descending. induction q as [|z q IH]; simpl; intros Hq.
  - repeat constructor.
  - inversion Hq as [|? ? Hq' Hz]; subst.
    destruct (pair_lt x z) eqn:E.
    + constructor; [apply IH; exact Hq'|].
      apply Forall_forall. intros y Hy. apply pq_push_elem in Hy.
      destruct Hy as [->|Hy].
      * apply pair_lt_asym. exact E.
      * rewrite Forall_forall in Hz. apply Hz. exact Hy.
    + constructor; [exact Hq|].
      constructor; [exact E|].
      apply Forall_forall. intros y Hy. rewrite Forall_forall in Hz.
      apply (pair_ge_trans x z y E). apply Hz. exact Hy.
Qed.

Lemma priority_queue_descending entries : descending (priority_queue entries).
Proof.
  induction entries as [|x l IH]; simpl.
  - constructor.
  - apply pq_push_descending. exact IH.
Qed.

End QueueFacts.

Section QueueSize.

Context {T : TemplateArgs}.

Lemma length_pq_push x (q : list (DistanceType * Z)) : length (pq_push x q) = S (length q).
Proof.
  induction q as [|z q IH]; simpl; [reflexivity|].
  destruct (pair_lt x z); simpl; [rewrite IH|]; reflexivity.
Qed.

Lemma length_priority_queue (entries : list (DistanceType * Z)) :
  length (priority_queue entries) = length entries.
Proof.
  induction entries as [|x l IH]; simpl; [reflexivity|].
  rewrite length_pq_push, IH. reflexivity.
Qed.

(** The queue holds the entries it was given, no more and no fewer. *)
Lemma pq_push_Permutation x (q : list (DistanceType * Z)) : Permutation (pq_push x q) (x :: q).
Proof.
  induction q as [|z q IH]; simpl; [reflexivity|].
  destruct (pair_lt x z); [|reflexivity].
  rewrite IH. apply perm_swap.
Qed.

Lemma priority_queue_Permutation (entries : list (DistanceType * Z)) :
  Permutation (priority_queue entries) entries.
Proof.
  induction entries as [|x l IH]; simpl; [reflexivity|].
  rewrite pq_push_Permutation. constructor. exact IH.
Qed.

End QueueSize.

(** ** Writing a run of consecutive slots of a vector *)
Section Overwrite.

Context {A : Type}.
Implicit Types (v w : list A).


Lemma length_overwrite v a w :
  (a + length w <= length v)%nat -> length (overwrite v a w) = length v.
Proof.
  intros H. unfold overwrite. rewrite !length_app, length_take, length_drop. lia.
Qed.

Lemma overwrite_nil v a : overwrite v a [] = v.
Proof. unfold overwrite. simpl. rewrite Nat.add_0_r. apply take_drop. Qed.

Lemma lookup_overwrite_in v a w p :
  (a + length w <= length v)%nat -> (a <= p < a + length w)%nat ->
  overwrite v a w !! p = w !! (p - a)%nat.
Proof.
  intros Hlen Hp. unfold overwrite.
  rewrite lookup_app_r by (rewrite length_take; lia).
  rewrite length_take. replace (a `min` length v)%nat with a by lia.
  rewrite lookup_app_l by lia. reflexivity.
Qed.

Lemma lookup_overwrite_out v a w p :
  (a + length w <= length v)%nat -> ~ (a <= p < a + length w)%nat ->
  overwrite v a w !! p = v !! p.
Proof.
  intros Hlen Hp. unfold overwrite.
  destruct (decide (p < a)%nat) as [Hlt|Hge].
  - rewrite lookup_app_l by (rewrite length_take; lia).
    apply lookup_take_lt. exact Hlt.
  - rewrite lookup_app_r by (rewrite length_take; lia).
    rewrite length_take. replace (a `min` length v)%nat with a by lia.
    rewrite lookup_app_r by lia. rewrite lookup_drop. f_equal. lia.
Qed.

(** Writing slot [p] and then the run that ends just before [p] is writing
    the run extended by that slot. *)
Lemma overwrite_insert v a w p x :
  (p < length v)%nat -> (a + length w = p)%nat ->
  overwrite (<[p := x]> v) a w = overwrite v a (w ++ [x]).
Proof.
  intros Hp Ha. unfold overwrite.
  rewrite take_insert_ge by lia.
  rewrite Ha. rewrite length_app. simpl.
  replace (a + (length w + 1))%nat with (S p) by lia.
  rewrite <- app_assoc. simpl. do 2 f_equal.
  rewrite drop_insert_ge by lia. rewrite Nat.sub_diag.
  destruct (drop p v) as [|y t] eqn:E.
  - apply (f_equal length) in E. rewrite length_drop in E. simpl in E. lia.
  - simpl. f_equal.
    change t with (drop 1 (y :: t)). rewrite <- E. rewrite drop_drop. f_equal. lia.
Qed.

End Overwrite.

(** ** The loops of [SearchNeighbours] *)
Section SearchLoops.

Context {T : TemplateArgs} {L : hnswlib T}.

Lemma vector_set_Done {A} (v : list A) (i : Z) (x : A) :
  0 <= i < Z.of_nat (length v) -> vector_set v i x = Done (<[Z.to_nat i := x]> v).
Proof.
  intros [H1 H2]. unfold vector_set.
  apply Z.leb_le in H1. apply Z.ltb_lt in H2. rewrite H1, H2. reflexivity.
Qed.


(** The [while] loop writes the queue backwards into the slots that end at
    [query_id * NN + result_id], so the slots read forwards hold the queue
    reversed. *)
Lemma store_results_Done query_id NN result :
  forall result_id indices distances,
  0 <= query_id < SIZE_MODULUS -> 0 <= NN -> 0 <= result_id ->
  query_id * NN + result_id < SIZE_MODULUS ->
  Z.of_nat (length result) <= result_id + 1 ->
  query_id * NN + result_id < Z.of_nat (length indices) ->
  query_id * NN + result_id < Z.of_nat (length distances) ->
  store_results query_id NN result result_id indices distances =
  Done (overwrite indices
          (Z.to_nat (query_id * NN + result_id + 1) - length result)
          (reverse (match_of query_id <$> result)),
        overwrite distances
          (Z.to_nat (query_id * NN + result_id + 1) - length result)
          (reverse (fst <$> result))).
Proof.
  induction result as [|res rest IH];
    intros result_id indices distances Hq HNN Hr Hmod Hlen Hi Hd.
  - simpl. rewrite !reverse_nil, !overwrite_nil. reflexivity.
  - cbn [store_results].
    assert (Hbase : 0 <= query_id * NN) by nia.
    assert (Hid : to_size_t (to_size_t (to_size_t query_id * NN) + result_id)
                  = query_id * NN + result_id).
    { rewrite (to_size_t_id query_id) by (unfold is_size_t; lia).
      rewrite (to_size_t_id (query_id * NN)) by (unfold is_size_t; lia).
      apply to_size_t_id. unfold is_size_t. lia. }
    rewrite Hid.
    rewrite vector_set_Done by lia. cbn [mbind outcome_bind].
    rewrite vector_set_Done by lia. cbn [mbind outcome_bind].
    change {| i_ := to_IndexT query_id; j_ := to_IndexT res.2 |}
      with (match_of query_id res).
    set (p := Z.to_nat (query_id * NN + result_id)).
    rewrite !fmap_cons, !reverse_cons.
    assert (Hpi : (p < length indices)%nat) by (subst p; lia).
    assert (Hpd : (p < length distances)%nat) by (subst p; lia).
    destruct rest as [|res' rest'].
    + cbn [store_results length]. rewrite !fmap_nil, !reverse_nil.
      replace (Z.to_nat (query_id * NN + result_id + 1) - 1)%nat with p
        by (subst p; lia).
      rewrite <- (overwrite_insert indices p [] p) by (simpl; lia).
      rewrite <- (overwrite_insert distances p [] p) by (simpl; lia).
      rewrite !overwrite_nil.
      reflexivity.
    + assert (Hr' : 1 <= result_id) by (cbn [length] in Hlen; lia).
      rewrite (to_size_t_id (result_id - 1)) by (unfold is_size_t; lia).
      cbn [length] in Hlen.
      rewrite IH; try lia; try (rewrite length_insert; lia);
        try (cbn [length]; lia).
      replace (query_id * NN + (result_id - 1) + 1) with (query_id * NN + result_id) by lia.
      fold p.
      set (w1 := reverse (match_of query_id <$> (res' :: rest'))).
      set (w2 := reverse (fst <$> (res' :: rest'))).
      assert (Hw1 : length w1 = length (res' :: rest'))
        by (subst w1; rewrite length_reverse, length_fmap; reflexivity).
      assert (Hw2 : length w2 = length (res' :: rest'))
        by (subst w2; rewrite length_reverse, length_fmap; reflexivity).
      rewrite (overwrite_insert indices _ w1 p) by (cbn [length] in *; lia).
      rewrite (overwrite_insert distances _ w2 p) by (cbn [length] in *; lia).
      f_equal. f_equal; (f_equal; subst p; cbn [length] in *; lia).
Qed.

End SearchLoops.

(** ** One batch of queries against one index *)
Section Batch.

Context {T : TemplateArgs} {L : hnswlib T}.
Variables (index : HierarchicalNSW) (query : pointer) (dimension NN nbQuery : Z).


Hypothesis HNN : 0 <= NN < SIZE_MODULUS.
Hypothesis Hn : 0 <= nbQuery <= INT_MAX.
Hypothesis Hfit : nbQuery * NN < SIZE_MODULUS.
Hypothesis Hoff : forall i, 0 <= i < nbQuery -> is_int (dimension * i).
Hypothesis Hknn : forall i, 0 <= i < nbQuery ->
  Z.of_nat (length (searchKnn index (ptr_add query (dimension * i)) NN)) <= NN.

Lemma length_neighbours i :
  length (neighbours index query dimension NN i)
  = length (searchKnn index (ptr_add query (dimension * i)) NN).
Proof. unfold neighbours. rewrite length_reverse. apply length_priority_queue. Qed.

Lemma slot_bounds i :
  0 <= i < nbQuery ->
  (first_slot index query dimension NN i + length (neighbours index query dimension NN i) = Z.to_nat (i * NN + NN))%nat /\
  (Z.to_nat (i * NN) <= first_slot index query dimension NN i)%nat /\
  (Z.to_nat (i * NN + NN) <= Z.to_nat (nbQuery * NN))%nat.
Proof.
  intros Hi. pose proof (Hknn i Hi) as Hk. rewrite <- length_neighbours in Hk.
  unfold first_slot. assert (0 <= i * NN) by nia.
  assert (i * NN + NN <= nbQuery * NN) by nia. lia.
Qed.

Lemma slots_disjoint i j p :
  0 <= i < nbQuery -> 0 <= j < nbQuery -> i <> j ->
  (first_slot index query dimension NN i <= p < first_slot index query dimension NN i + length (neighbours index query dimension NN i))%nat ->
  ~ (first_slot index query dimension NN j <= p < first_slot index query dimension NN j + length (neighbours index query dimension NN j))%nat.
Proof.
  intros Hi Hj Hij Hp.
  destruct (slot_bounds i Hi) as (Ei & Li & _).
  destruct (slot_bounds j Hj) as (Ej & Lj & _).
  assert (0 <= i * NN) by nia. assert (0 <= j * NN) by nia.
  assert (i * NN + NN <= j * NN \/ j * NN + NN <= i * NN) by nia.
  lia.
Qed.

Lemma search_query_Done i indices distances :
  0 <= i < nbQuery ->
  length indices = Z.to_nat (nbQuery * NN) ->
  length distances = Z.to_nat (nbQuery * NN) ->
  search_query index query dimension NN i indices distances =
  Done (overwrite indices (first_slot index query dimension NN i) (match_of i <$> neighbours index query dimension NN i),
        overwrite distances (first_slot index query dimension NN i) (fst <$> neighbours index query dimension NN i),
        call_searchKnn (ptr_add query (dimension * i)) NN).
Proof.
  intros Hi Hli Hld. unfold search_query.
  rewrite (int_mul_Done _ _ (Hoff i Hi)). cbn [mbind outcome_bind].
  pose proof (Hknn i Hi) as Hk. rewrite <- length_priority_queue in Hk.
  unfold first_slot, neighbours.
  destruct (priority_queue _) as [|res rest] eqn:E.
  - cbn [store_results mbind outcome_bind].
    rewrite reverse_nil, !fmap_nil, !overwrite_nil. reflexivity.
  - assert (1 <= NN) by (cbn [length] in Hk; lia).
    assert (0 <= i * NN) by nia.
    assert (i * NN + NN <= nbQuery * NN) by nia.
    assert (INT_MAX < SIZE_MODULUS) by reflexivity.
    rewrite (to_size_t_id (NN - 1)) by (unfold is_size_t; lia).
    rewrite store_results_Done by lia.
    cbn [mbind outcome_bind].
    rewrite !fmap_reverse, length_reverse.
    replace (i * NN + (NN - 1) + 1) with (i * NN + NN) by lia.
    reflexivity.
Qed.

Lemma length_write_all {X} (f : Z -> DistanceType * Z -> X) schedule :
  forall v,
  Forall (fun i => 0 <= i < nbQuery) schedule ->
  length v = Z.to_nat (nbQuery * NN) ->
  length (write_all index query dimension NN f schedule v) = Z.to_nat (nbQuery * NN).
Proof.
  induction schedule as [|i rest IH]; intros v Hall Hv; [exact Hv|].
  inversion Hall as [|? ? Hi Hrest]; subst. cbn [write_all foldl].
  apply IH; [exact Hrest|].
  destruct (slot_bounds i Hi) as (E & _ & B).
  rewrite length_overwrite; [exact Hv|]. rewrite length_fmap. lia.
Qed.

Lemma search_queries_Done schedule :
  forall indices distances calls,
  Forall (fun i => 0 <= i < nbQuery) schedule ->
  length indices = Z.to_nat (nbQuery * NN) ->
  length distances = Z.to_nat (nbQuery * NN) ->
  search_queries index query dimension NN schedule indices distances calls =
  Done (write_all index query dimension NN match_of schedule indices,
        write_all index query dimension NN (fun _ => fst) schedule distances,
        calls ++ ((fun i => call_searchKnn (ptr_add query (dimension * i)) NN)
                    <$> schedule)).
Proof.
  induction schedule as [|i rest IH]; intros indices distances calls Hall Hli Hld.
  - cbn. rewrite app_nil_r. reflexivity.
  - inversion Hall as [|? ? Hi Hrest]; subst.
    cbn [search_queries]. rewrite search_query_Done by assumption.
    cbn [mbind outcome_bind].
    destruct (slot_bounds i Hi) as (E & _ & B).
    rewrite IH; [|exact Hrest|..].
    + rewrite fmap_cons, <- app_assoc. reflexivity.
    + rewrite length_overwrite; [exact Hli|]. rewrite length_fmap. lia.
    + rewrite length_overwrite; [exact Hld|]. rewrite length_fmap. lia.
Qed.

(** A slot no scheduled query writes keeps its content. *)
Lemma lookup_write_all_out {X} (f : Z -> DistanceType * Z -> X) schedule p :
  forall v,
  Forall (fun i => 0 <= i < nbQuery) schedule ->
  length v = Z.to_nat (nbQuery * NN) ->
  (forall i, i ∈ schedule ->
     ~ (first_slot index query dimension NN i <= p < first_slot index query dimension NN i + length (neighbours index query dimension NN i))%nat) ->
  write_all index query dimension NN f schedule v !! p = v !! p.
Proof.
  induction schedule as [|i rest IH]; intros v Hall Hv Hout; [reflexivity|].
  inversion Hall as [|? ? Hi Hrest]; subst. cbn [write_all foldl].
  destruct (slot_bounds i Hi) as (E & _ & B).
  unfold write_all in IH. rewrite IH.
  - apply lookup_overwrite_out; rewrite length_fmap; [lia|].
    apply Hout. left.
  - exact Hrest.
  - rewrite length_overwrite; [exact Hv|]. rewrite length_fmap. lia.
  - intros j Hj. apply Hout. right. exact Hj.
Qed.

(** A slot of a scheduled query holds the entry of the neighbour it is for. *)
Lemma lookup_write_all_in {X} (f : Z -> DistanceType * Z -> X) schedule i k :
  forall v,
  Forall (fun i => 0 <= i < nbQuery) schedule ->
  length v = Z.to_nat (nbQuery * NN) ->
  i ∈ schedule -> (k < length (neighbours index query dimension NN i))%nat ->
  write_all index query dimension NN f schedule v !! (first_slot index query dimension NN i + k)%nat = (f i <$> neighbours index query dimension NN i) !! k.
Proof.
  induction schedule as [|j rest IH]; intros v Hall Hv Hin Hk.
  - apply elem_of_nil in Hin. destruct Hin.
  - inversion Hall as [|? ? Hj Hrest]; subst. cbn [write_all foldl].
    destruct (slot_bounds j Hj) as (E & _ & B).
    assert (Hv' : length (overwrite v (first_slot index query dimension NN j) (f j <$> neighbours index query dimension NN j))
                  = Z.to_nat (nbQuery * NN)).
    { rewrite length_overwrite; [exact Hv|]. rewrite length_fmap. lia. }
    destruct (decide (i ∈ rest)) as [Hir|Hir].
    + apply IH; assumption.
    + apply elem_of_cons in Hin. destruct Hin as [->|Hin]; [|contradiction].
      fold (write_all index query dimension NN f rest (overwrite v (first_slot index query dimension NN j) (f j <$> neighbours index query dimension NN j))).
      rewrite lookup_write_all_out; [|exact Hrest|exact Hv'|].
      * rewrite lookup_overwrite_in; rewrite ?length_fmap; [|lia|lia].
        f_equal. lia.
      * intros i Hi. rewrite Forall_forall in Hrest.
        apply (slots_disjoint j i); [exact Hj|apply Hrest; exact Hi| |lia].
        intros ->. contradiction.
Qed.

(** The order of the iterations does not matter: every slot is written by
    at most one query. *)
Lemma write_all_Permutation {X} (f : Z -> DistanceType * Z -> X) s s' v :
  Forall (fun i => 0 <= i < nbQuery) s ->
  length v = Z.to_nat (nbQuery * NN) ->
  Permutation s s' ->
  write_all index query dimension NN f s v = write_all index query dimension NN f s' v.
Proof.
  intros Hall Hv Hperm.
  assert (Hall' : Forall (fun i => 0 <= i < nbQuery) s')
    by (rewrite <- Hperm; exact Hall).
  apply list_eq. intros p.
  destruct (decide (Exists (fun i =>
              (first_slot index query dimension NN i <= p < first_slot index query dimension NN i + length (neighbours index query dimension NN i))%nat) s))
    as [Hex|Hno].
  - apply Exists_exists in Hex. destruct Hex as (i & Hi & Hp).
    replace p with (first_slot index query dimension NN i + (p - first_slot index query dimension NN i))%nat by lia.
    rewrite !lookup_write_all_in; try assumption; try lia; [reflexivity|].
    rewrite <- Hperm. exact Hi.
  - rewrite !lookup_write_all_out; try assumption; [reflexivity| |].
    + intros i Hi Hp. apply Hno. apply Exists_exists. exists i.
      split; [|exact Hp]. rewrite Hperm. exact Hi.
    + intros i Hi Hp. apply Hno. apply Exists_exists. exists i. auto.
Qed.

(** Block [i] after the batch: the leading slots are as they were, the
    trailing ones hold the neighbours index query dimension NN of query [i], nearest first. *)
Lemma block_write_all {X} (f : Z -> DistanceType * Z -> X) schedule i v :
  Forall (fun i => 0 <= i < nbQuery) schedule ->
  length v = Z.to_nat (nbQuery * NN) ->
  i ∈ schedule ->
  block_of NN i (write_all index query dimension NN f schedule v)
  = take (Z.to_nat NN - length (neighbours index query dimension NN i)) (block_of NN i v)
    ++ (f i <$> neighbours index query dimension NN i).
Proof.
  intros Hall Hv Hin.
  assert (Hi : 0 <= i < nbQuery) by (rewrite Forall_forall in Hall; auto).
  destruct (slot_bounds i Hi) as (E & B & F).
  pose proof (Hknn i Hi) as Hk. rewrite <- length_neighbours in Hk.
  assert (0 <= i * NN) by nia.
  assert (Hfs : first_slot index query dimension NN i = (Z.to_nat (i * NN) + (Z.to_nat NN - length (neighbours index query dimension NN i)))%nat)
    by lia.
  apply list_eq. intros k. unfold block_of.
  destruct (decide (k < Z.to_nat NN)%nat) as [Hlt|Hge].
  - rewrite lookup_take_lt by exact Hlt. rewrite lookup_drop.
    destruct (decide (k < Z.to_nat NN - length (neighbours index query dimension NN i))%nat) as [Hpre|Hsuf].
    + rewrite lookup_app_l
        by (rewrite length_take, length_take, length_drop, Hv; lia).
      rewrite lookup_take_lt by exact Hpre.
      rewrite lookup_take_lt by exact Hlt. rewrite lookup_drop.
      apply lookup_write_all_out; [exact Hall|exact Hv|].
      intros j Hj. destruct (decide (j = i)) as [->|Hne]; [lia|].
      rewrite Forall_forall in Hall.
      destruct (slot_bounds j (Hall j Hj)) as (Ej & Bj & Fj).
      assert (0 <= j * NN) by (specialize (Hall j Hj); nia).
      assert (i * NN + NN <= j * NN \/ j * NN + NN <= i * NN)
        by (specialize (Hall j Hj); nia).
      lia.
    + rewrite lookup_app_r
        by (rewrite length_take, length_take, length_drop, Hv; lia).
      rewrite length_take, length_take, length_drop, Hv.
      replace (Z.to_nat (i * NN) + k)%nat
        with (first_slot index query dimension NN i + (k - (Z.to_nat NN - length (neighbours index query dimension NN i))))%nat by lia.
      rewrite lookup_write_all_in; [|exact Hall|exact Hv|exact Hin|lia].
      f_equal. lia.
  - rewrite lookup_take_ge by lia. symmetry. apply lookup_ge_None.
    rewrite length_app, length_fmap, length_take. lia.
Qed.

End Batch.

(** ** [SearchNeighbours] on a built matcher *)
Section SearchNeighboursFacts.

Context {T : TemplateArgs} {L : hnswlib T}.


Lemma length_resized {X} nbQuery NN (zero : X) v :
  0 <= NN -> 0 <= nbQuery < SIZE_MODULUS -> nbQuery * NN < SIZE_MODULUS ->
  length (resized nbQuery NN zero v) = Z.to_nat (nbQuery * NN).
Proof.
  intros HNN Hn Hfit. unfold resized. rewrite length_resize.
  rewrite (to_size_t_id nbQuery) by exact Hn.
  rewrite to_size_t_id by (unfold is_size_t; nia). reflexivity.
Qed.

(** A batch in any iteration order: the run is defined, returns [true],
    leaves the index with the breadth of [efSearch], and the outputs are the
    resized vectors with every query's slots written. *)
Lemma SearchNeighbours_scheduled_Done schedule this index query nbQuery
    pvec_indices pvec_distances NN :
  batch_defined this index query nbQuery NN ->
  Forall (fun i => 0 <= i < nbQuery) schedule ->
  let index' := setEf index (efSearch NN nbQuery) in
  SearchNeighbours_scheduled schedule this query nbQuery pvec_indices pvec_distances NN =
  Done (true,
        {| dimension_ := dimension_ this;
           HNSW_metric_ := HNSW_metric_ this;
           HNSW_matcher_ := Some index' |},
        write_all index' query (dimension_ this) NN match_of schedule
          (resized nbQuery NN IndMatch_zero pvec_indices),
        write_all index' query (dimension_ this) NN (fun _ => fst) schedule
          (resized nbQuery NN DistanceType_zero pvec_distances),
        call_setEf (efSearch NN nbQuery)
          :: ((fun i => call_searchKnn (ptr_add query (dimension_ this * i)) NN)
                <$> schedule)).
Proof.
  intros (Hidx & HNN & Hn & Hfit & Hoff & Hknn) Hall index'.
  assert (INT_MAX < SIZE_MODULUS) by reflexivity.
  unfold SearchNeighbours_scheduled. rewrite Hidx. cbv zeta.
  fold (resized nbQuery NN IndMatch_zero pvec_indices).
  fold (resized nbQuery NN DistanceType_zero pvec_distances).
  rewrite (search_queries_Done _ _ _ NN nbQuery); try assumption;
    try (apply length_resized; lia).
  reflexivity.
Qed.

End SearchNeighboursFacts.

(** ** Sorted lists *)
Section SortedFacts.

Context {A : Type} (R : relation A).



End SortedFacts.

Section NeighbourOrder.

Context {T : TemplateArgs} {O : DistanceOrder T} {L : hnswlib T}.


End NeighbourOrder.


(** ** The claims about [Build] *)
Section BuildClaims.

Context {T : TemplateArgs} {L : hnswlib T}.

(** C2 (as amended).  A [Build] that returns [false] made no library call
    and failed in one of two ways: [nbRows < 1], and then both owning
    pointers have been reset to null (a previously built index is gone) and
    [dimension_] is as before; or [nbRows >= 1] with a metric/representation
    pairing the switch does not handle, and then the metric space and the
    index are the ones owned before and [dimension_] is the new dimension.
    No failure depends on the dimension. *)
Theorem Build_failure_state (this : HNSWMatcher) dataset nbRows dimension this' calls :
  Build this dataset nbRows dimension = Done (false, this', calls) ->
  calls = [] /\
  ((nbRows < 1 /\
    dimension_ this' = dimension_ this /\
    HNSW_metric_ this' = None /\ HNSW_matcher_ this' = None)
   \/
   (1 <= nbRows /\ supported = false /\
    dimension_ this' = dimension /\
    HNSW_metric_ this' = HNSW_metric_ this /\
    HNSW_matcher_ this' = HNSW_matcher_ this)).
Proof.
  intros HB. apply Build_false_inv in HB.
  destruct HB as [Hc [[Hn ->]|(Hn & Hs & ->)]]; (split; [exact Hc|]).
  - left. repeat split; assumption.
  - right. repeat split; assumption.
Qed.

(** C3 (as amended).  [Build] does not look at the sign of [dimension]:
    whether it returns [false] depends on [nbRows] and on the
    metric/representation pairing alone, and with [dimension = 0], at least
    one row and a handled pairing it returns [true], stores 0 in
    [dimension_] and owns a metric space over 0 components and an index into
    which every row has been inserted. *)
Theorem Build_dimension_unchecked (this : HNSWMatcher) dataset nbRows :
  (forall dimension,
     (exists this' calls,
        Build this dataset nbRows dimension = Done (false, this', calls))
     <-> (nbRows < 1 \/ supported = false))
  /\
  (1 <= nbRows -> supported = true ->
   exists space index calls,
     Build this dataset nbRows 0
     = Done (true,
             {| dimension_ := 0;
                HNSW_metric_ := Some space;
                HNSW_matcher_ := Some index |},
             calls)
     /\ space_dim space = 0
     /\ length (List.filter is_addPoint calls) = Z.to_nat nbRows).
Proof.
  split.
  - intros dimension. split.
    + intros (this' & calls & HB). apply Build_false_inv in HB.
      destruct HB as [_ [[Hn _]|(_ & Hs & _)]]; auto.
    + intros H. destruct (Z.lt_ge_cases nbRows 1) as [Hn|Hn].
      * eexists _, _. apply Build_empty. exact Hn.
      * destruct H as [H|H]; [lia|].
        eexists _, _. apply Build_unsupported; assumption.
  - intros Hn Hs. destruct (new_metric_supported 0 Hs) as [c Hc].
    eexists _, _, _. split; [|split].
    + apply Build_supported; [exact Hn|exact Hc|].
      apply Forall_forall. intros v _. rewrite Z.mul_0_l.
      unfold is_int, INT_MIN, INT_MAX. lia.
    + reflexivity.
    + cbn [app List.filter is_addPoint length].
      assert (Hl : forall l : list Z,
                 length (List.filter is_addPoint
                           (map (fun v => call_addPoint (ptr_add dataset (0 * v))
                                                        (to_size_t v)) l))
                 = length l).
      { induction l as [|v l IH]; cbn; [reflexivity|]. rewrite IH. reflexivity. }
      rewrite Hl, length_seqZ. lia.
Qed.

(** C6.  With [nbRows < 1], [Build] returns [false], owns neither a metric
    space nor an index afterwards, and has called the library not at all;
    with a pairing the switch does not handle, [Build] returns [false]
    without a single library call, so without any [addPoint]. *)
Theorem Build_rejects_before_insertion (this : HNSWMatcher) dataset nbRows dimension :
  (nbRows < 1 ->
   exists this',
     Build this dataset nbRows dimension = Done (false, this', [])
     /\ HNSW_metric_ this' = None /\ HNSW_matcher_ this' = None)
  /\
  (supported = false ->
   exists this' calls,
     Build this dataset nbRows dimension = Done (false, this', calls)
     /\ List.filter is_addPoint calls = [] /\ calls = []).
Proof.
  split.
  - intros Hn. eexists. split; [apply Build_empty; exact Hn|]. split; reflexivity.
  - intros Hs. destruct (Z.lt_ge_cases nbRows 1) as [Hn|Hn].
    + eexists _, _. split; [apply Build_empty; exact Hn|]. split; reflexivity.
    + eexists _, _. split; [apply Build_unsupported; assumption|].
      split; reflexivity.
Qed.

(** The pairing is fixed by the template arguments, so a matcher of an
    unhandled pairing has failed every [Build] with [nbRows >= 1] it was
    given: it owns neither metric space nor index. *)
Lemma unsupported_owns_nothing (this : HNSWMatcher) :
  supported = false -> reachable this ->
  HNSW_metric_ this = None /\ HNSW_matcher_ this = None.
Proof.
  intros Hs Hr.
  induction Hr as [d|this schedule dataset nbRows dimension ok this' calls _ [IH1 IH2] _ HB
                  |this c this' _ [IH1 IH2] HQ].
  - split; reflexivity.
  - unfold Build_scheduled in HB. rewrite (new_metric_unsupported _ Hs) in HB.
    destruct (nbRows <? 1); injection HB as <- <- <-; cbn; auto.
  - destruct c as [query indice distance|query nbQuery pi pd NN];
      cbn [run_query] in HQ;
      unfold SearchNeighbours, SearchNeighbours_scheduled, SearchNeighbour in HQ;
      rewrite IH2 in HQ; cbn in HQ; injection HQ as <-; auto.
Qed.

(** C9 (as amended).  A [Build] that fails on the metric/representation
    pairing (so with [nbRows >= 1]) leaves [HNSW_metric_] and
    [HNSW_matcher_] as they were and stores the new dimension in
    [dimension_].  The pairing is fixed by the template arguments: a matcher
    that fails this way, reached from a default-constructed one by calls of
    [Build] and of the searches, owns neither metric space nor index, before
    the call and after it; what the call leaves is a matcher with two null
    pointers and the new dimension, and there is no index for [dimension_]
    to disagree with. *)
Theorem Build_unsupported_overwrites_dimension (this : HNSWMatcher) dataset nbRows dimension :
  1 <= nbRows -> supported = false ->
  (exists this',
     Build this dataset nbRows dimension = Done (false, this', [])
     /\ HNSW_metric_ this' = HNSW_metric_ this
     /\ HNSW_matcher_ this' = HNSW_matcher_ this
     /\ dimension_ this' = dimension)
  /\ (reachable this ->
      HNSW_metric_ this = None /\ HNSW_matcher_ this = None
      /\ Build this dataset nbRows dimension
         = Done (false, HNSWMatcher_default dimension, [])).
Proof.
  intros Hn Hs. split.
  - eexists. split; [apply Build_unsupported; assumption|].
    repeat split.
  - intros Hr. destruct (unsupported_owns_nothing this Hs Hr) as [Hm Hi].
    split; [exact Hm|]. split; [exact Hi|].
    rewrite (Build_unsupported this dataset nbRows dimension Hn Hs).
    rewrite Hm, Hi. reflexivity.
Qed.

End BuildClaims.

(** C2 fails as stated: the matcher built over the four descriptors owns an
    index; [Build] with [nbRows = 0] on it returns [false] and the matcher
    owns neither index nor metric space afterwards. *)
Lemma Build_empty_discards_index :
  Build (fresh L2_HNSW c_int) (descriptors L2_HNSW c_int) 4 4
  = Done (true, built L2_HNSW c_int 4,
          [call_new {| space_class := L2SpaceI; space_dim := 4 |} 4 16 100;
           call_addPoint (descriptors L2_HNSW c_int) 0;
           call_addPoint (ptr_add (descriptors L2_HNSW c_int) 4) 1;
           call_addPoint (ptr_add (descriptors L2_HNSW c_int) 8) 2;
           call_addPoint (ptr_add (descriptors L2_HNSW c_int) 12) 3])
  /\ is_Some (HNSW_matcher_ (built L2_HNSW c_int 4))
  /\ Build (built L2_HNSW c_int 4) (descriptors L2_HNSW c_int) 0 4
     = Done (false,
             {| dimension_ := 4; HNSW_metric_ := None; HNSW_matcher_ := None |},
             []).
Proof.
  split; [reflexivity|]. split; [|reflexivity].
  eexists. reflexivity.
Qed.

Lemma Build_failure_state_witness :
  let this' : @HNSWMatcher (Exhaustive.args L2_HNSW c_int) Exhaustive.lib :=
    {| dimension_ := 4; HNSW_metric_ := None; HNSW_matcher_ := None |} in
  Build (built L2_HNSW c_int 4) (descriptors L2_HNSW c_int) 0 4
  = Done (false, this', []) /\
  @nil (@hnsw_call (Exhaustive.args L2_HNSW c_int)) = [] /\
  ((0 < 1 /\
    dimension_ this' = dimension_ (built L2_HNSW c_int 4) /\
    HNSW_metric_ this' = None /\ HNSW_matcher_ this' = None)
   \/
   (1 <= 0 /\ @supported (Exhaustive.args L2_HNSW c_int) = false /\
    dimension_ this' = 4 /\
    HNSW_metric_ this' = HNSW_metric_ (built L2_HNSW c_int 4) /\
    HNSW_matcher_ this' = HNSW_matcher_ (built L2_HNSW c_int 4))).
Proof.
  intros this'. split; [reflexivity|].
  exact (Build_failure_state (built L2_HNSW c_int 4) (descriptors L2_HNSW c_int)
           0 4 this' [] eq_refl).
Defined.

(** C3 fails as stated: [Build] over one row with [dimension = 0] returns
    [true] and owns an index over a 0-dimensional space. *)
Lemma Build_accepts_dimension_zero :
  Build (fresh L2_HNSW c_int) (descriptors L2_HNSW c_int) 1 0
  = Done (true,
          @Build_HNSWMatcher (Exhaustive.args L2_HNSW c_int) Exhaustive.lib 0
            (Some {| space_class := L2SpaceI; space_dim := 0 |})
            (Some {| Exhaustive.ix_space := {| space_class := L2SpaceI; space_dim := 0 |};
                     Exhaustive.ix_max_elements := 1;
                     Exhaustive.ix_M := 16;
                     Exhaustive.ix_ef_construction := 100;
                     Exhaustive.ix_ef := 10;
                     Exhaustive.ix_points := [(0, [])] |}),
          [call_new {| space_class := L2SpaceI; space_dim := 0 |} 1 16 100;
           call_addPoint (descriptors L2_HNSW c_int) 0]).
Proof. reflexivity. Qed.

Lemma Build_dimension_unchecked_witness :
  1 <= 4 /\ @supported (Exhaustive.args L2_HNSW c_int) = true /\
  exists space index calls,
    Build (fresh L2_HNSW c_int) (descriptors L2_HNSW c_int) 4 0
    = Done (true,
            {| dimension_ := 0;
               HNSW_metric_ := Some space;
               HNSW_matcher_ := Some index |},
            calls)
    /\ space_dim space = 0
    /\ length (List.filter is_addPoint calls) = Z.to_nat 4.
Proof.
  split; [lia|]. split; [reflexivity|].
  apply (Build_dimension_unchecked (fresh L2_HNSW c_int) (descriptors L2_HNSW c_int) 4).
  - lia.
  - reflexivity.
Defined.

Lemma Build_rejects_before_insertion_witness :
  0 < 1 /\ @supported (Exhaustive.args HAMMING_HNSW c_int) = false /\
  (exists this',
     Build (built L2_HNSW c_int 4) (descriptors L2_HNSW c_int) 0 4 = Done (false, this', [])
     /\ HNSW_metric_ this' = None /\ HNSW_matcher_ this' = None)
  /\
  (exists this' calls,
     Build (fresh HAMMING_HNSW c_int) (descriptors HAMMING_HNSW c_int) 4 4
     = Done (false, this', calls)
     /\ List.filter is_addPoint calls = [] /\ calls = []).
Proof.
  split; [lia|]. split; [reflexivity|]. split.
  - apply (Build_rejects_before_insertion (built L2_HNSW c_int 4)
             (descriptors L2_HNSW c_int) 0 4). lia.
  - apply (Build_rejects_before_insertion (fresh HAMMING_HNSW c_int)
             (descriptors HAMMING_HNSW c_int) 4 4). reflexivity.
Defined.

(** A Hamming matcher over [int] distances that has already failed one
    [Build] fails the next one too. *)
Lemma Build_unsupported_overwrites_dimension_witness :
  let this : @HNSWMatcher (Exhaustive.args HAMMING_HNSW c_int) Exhaustive.lib :=
    HNSWMatcher_default 4 in
  let dataset := descriptors HAMMING_HNSW c_int in
  1 <= 4 /\ @supported (Exhaustive.args HAMMING_HNSW c_int) = false /\
  reachable this /\
  (exists this',
     Build this dataset 4 128 = Done (false, this', [])
     /\ HNSW_metric_ this' = HNSW_metric_ this
     /\ HNSW_matcher_ this' = HNSW_matcher_ this
     /\ dimension_ this' = 128)
  /\ HNSW_metric_ this = None /\ HNSW_matcher_ this = None
  /\ Build this dataset 4 128 = Done (false, HNSWMatcher_default 128, []).
Proof.
  intros this dataset.
  assert (Hr : reachable this).
  { apply (reachable_Build (fresh HAMMING_HNSW c_int) (seqZ 1 (4 - 1)) dataset 4 4
             false this []).
    - apply reachable_default.
    - apply Permutation_refl.
    - reflexivity. }
  split; [lia|]. split; [reflexivity|]. split; [exact Hr|].
  destruct (Build_unsupported_overwrites_dimension this dataset 4 128
              ltac:(lia) eq_refl) as [H1 H2].
  split; [exact H1|]. exact (H2 Hr).
Defined.

(** C9 fails as stated: a Hamming matcher whose distance type is [int]
    fails [Build] over the four descriptors and has 128 in [dimension_]
    afterwards, but it owns no index, and no sequence of calls gives it one. *)
Lemma Build_unsupported_owns_no_index :
  Build (fresh HAMMING_HNSW c_int) (descriptors HAMMING_HNSW c_int) 4 128
  = Done (false, HNSWMatcher_default 128, [])
  /\ forall this : @HNSWMatcher (Exhaustive.args HAMMING_HNSW c_int) Exhaustive.lib,
       reachable this -> HNSW_matcher_ this = None.
Proof.
  split; [reflexivity|].
  intros this Hr. apply (unsupported_owns_nothing this eq_refl Hr).
Qed.

(** ** Queries on a matcher that owns no index *)
Section Unready.

Context {T : TemplateArgs} {L : hnswlib T}.

(** C5.  A matcher on which no [Build] has succeeded owns no index, and on
    a matcher that owns no index [SearchNeighbour] and [SearchNeighbours]
    return [false], leave the matcher and the output parameters as they
    were, and call the library not at all. *)
Theorem search_before_build (this : HNSWMatcher) :
  (never_built this -> HNSW_matcher_ this = None)
  /\
  (HNSW_matcher_ this = None ->
   (forall query indice distance,
      SearchNeighbour this query indice distance
      = Done (false, this, indice, distance, []))
   /\
   (forall query nbQuery pvec_indices pvec_distances NN,
      SearchNeighbours this query nbQuery pvec_indices pvec_distances NN
      = Done (false, this, pvec_indices, pvec_distances, []))).
Proof.
  split.
  - intros H. apply never_built_no_index in H. tauto.
  - intros H. split.
    + intros query indice distance. unfold SearchNeighbour. rewrite H. reflexivity.
    + intros query nbQuery pvec_indices pvec_distances NN.
      unfold SearchNeighbours, SearchNeighbours_scheduled. rewrite H. reflexivity.
Qed.

End Unready.

Lemma search_before_build_witness :
  let this := fresh L2_HNSW c_int in
  never_built this /\
  SearchNeighbour this (two_queries L2_HNSW c_int) (-1) (-1)
  = Done (false, this, -1, -1, [])
  /\
  SearchNeighbours this (two_queries L2_HNSW c_int) 2 [] [] 3
  = Done (false, this, [], [], []).
Proof.
  intros this. split; [apply never_built_default|].
  pose proof (proj1 (search_before_build this) (never_built_default 7)) as Hnone.
  destruct (proj2 (search_before_build this) Hnone) as [H1 H2].
  split; [apply H1|apply H2].
Defined.

(** ** The claims about [SearchNeighbours] *)
Section BatchClaims.

Context {T : TemplateArgs} {L : hnswlib T}.


Variables (this : HNSWMatcher) (index : HierarchicalNSW) (query : pointer).
Variables (nbQuery NN : Z).
Variables (pvec_indices : list IndMatch) (pvec_distances : list DistanceType).
Hypothesis Hdef : batch_defined this index query nbQuery NN.

Lemma seqZ_in_range : Forall (fun i => 0 <= i < nbQuery) (seqZ 0 nbQuery).
Proof. apply Forall_seqZ. intros i Hi. lia. Qed.

Lemma length_found i :
  0 <= i < nbQuery -> (length (found this index query nbQuery NN i) <= Z.to_nat NN)%nat.
Proof.
  intros Hi. destruct Hdef as (_ & _ & _ & _ & _ & Hknn).
  unfold found. rewrite length_neighbours. specialize (Hknn i Hi). lia.
Qed.

(** What a batch returns, for every iteration order of its loop. *)
Lemma SearchNeighbours_scheduled_result schedule :
  Permutation schedule (seqZ 0 nbQuery) ->
  SearchNeighbours_scheduled schedule this query nbQuery pvec_indices pvec_distances NN
  = Done (true, searched this index nbQuery NN,
          write_all (setEf index (efSearch NN nbQuery)) query (dimension_ this) NN
            match_of (seqZ 0 nbQuery) (resized nbQuery NN IndMatch_zero pvec_indices),
          write_all (setEf index (efSearch NN nbQuery)) query (dimension_ this) NN
            (fun _ => fst) (seqZ 0 nbQuery)
            (resized nbQuery NN DistanceType_zero pvec_distances),
          call_setEf (efSearch NN nbQuery)
            :: ((fun i => call_searchKnn (ptr_add query (dimension_ this * i)) NN)
                  <$> schedule)).
Proof.
  intros Hperm.
  assert (Hall : Forall (fun i => 0 <= i < nbQuery) schedule)
    by (rewrite Hperm; exact seqZ_in_range).
  rewrite (SearchNeighbours_scheduled_Done schedule this index) by assumption.
  destruct Hdef as (Hidx & HNN & Hn & Hfit & Hoff & Hknn).
  assert (INT_MAX < SIZE_MODULUS) by reflexivity.
  cbv zeta. unfold searched.
  rewrite (write_all_Permutation _ _ _ NN nbQuery HNN Hn Hfit Hknn match_of
             schedule (seqZ 0 nbQuery)); try assumption;
    [|apply length_resized; lia].
  rewrite (write_all_Permutation _ _ _ NN nbQuery HNN Hn Hfit Hknn (fun _ => fst)
             schedule (seqZ 0 nbQuery)); try assumption;
    [|apply length_resized; lia].
  reflexivity.
Qed.

(** Block [i] of an output of the batch. *)
Lemma block_of_output {X} (f : Z -> DistanceType * Z -> X) (zero : X) (v : list X) i :
  0 <= i < nbQuery ->
  block_of NN i (write_all (setEf index (efSearch NN nbQuery)) query (dimension_ this) NN
                   f (seqZ 0 nbQuery) (resized nbQuery NN zero v))
  = take (Z.to_nat NN - length (found this index query nbQuery NN i))
         (block_of NN i (resized nbQuery NN zero v))
    ++ (f i <$> found this index query nbQuery NN i).
Proof.
  intros Hi. destruct Hdef as (Hidx & HNN & Hn & Hfit & Hoff & Hknn).
  assert (INT_MAX < SIZE_MODULUS) by reflexivity.
  apply (block_write_all _ _ _ NN nbQuery HNN Hn Hfit Hknn).
  - exact seqZ_in_range.
  - apply length_resized; lia.
  - apply elem_of_seqZ. lia.
Qed.

Lemma length_output {X} (f : Z -> DistanceType * Z -> X) (zero : X) (v : list X) :
  length (write_all (setEf index (efSearch NN nbQuery)) query (dimension_ this) NN
            f (seqZ 0 nbQuery) (resized nbQuery NN zero v))
  = Z.to_nat (nbQuery * NN).
Proof.
  destruct Hdef as (Hidx & HNN & Hn & Hfit & Hoff & Hknn).
  assert (INT_MAX < SIZE_MODULUS) by reflexivity.
  apply (length_write_all _ _ _ NN nbQuery HNN Hknn).
  - exact seqZ_in_range.
  - apply length_resized; lia.
Qed.

Lemma length_block_of {X} (v : list X) i :
  0 <= i < nbQuery -> length v = Z.to_nat (nbQuery * NN) ->
  length (block_of NN i v) = Z.to_nat NN.
Proof.
  intros Hi Hv. destruct Hdef as (_ & HNN & Hn & _).
  unfold block_of. rewrite length_take, length_drop, Hv.
  assert (0 <= i * NN) by nia. assert (i * NN + NN <= nbQuery * NN) by nia. lia.
Qed.

End BatchClaims.

Section BatchTheorems.

Context {T : TemplateArgs} {L : hnswlib T}.

(** C1 (as amended).  A batch over [nbQuery] queries with neighbour count
    [NN] returns [true] and two vectors of [nbQuery * NN] slots: every
    query [i] has a block of exactly [NN] slots, whatever the size of the
    dataset.  The neighbours found for the query, at most [NN] of them,
    fill the end of the block, nearest first; the slots before them are as
    [resize] left them (value-initialised, or what the caller's vector held
    there). *)
Theorem SearchNeighbours_block_layout (this : HNSWMatcher) index query nbQuery
    pvec_indices pvec_distances NN :
  batch_defined this index query nbQuery NN ->
  exists indices distances calls,
    SearchNeighbours this query nbQuery pvec_indices pvec_distances NN
    = Done (true, searched this index nbQuery NN, indices, distances, calls)
    /\ length indices = Z.to_nat (nbQuery * NN)
    /\ length distances = Z.to_nat (nbQuery * NN)
    /\ forall i, 0 <= i < nbQuery ->
       let results := found this index query nbQuery NN i in
       (length results <= Z.to_nat NN)%nat
       /\ length (block_of NN i indices) = Z.to_nat NN
       /\ length (block_of NN i distances) = Z.to_nat NN
       /\ block_of NN i indices
          = take (Z.to_nat NN - length results)
                 (block_of NN i (resized nbQuery NN IndMatch_zero pvec_indices))
            ++ (match_of i <$> results)
       /\ block_of NN i distances
          = take (Z.to_nat NN - length results)
                 (block_of NN i (resized nbQuery NN DistanceType_zero pvec_distances))
            ++ (fst <$> results).
Proof.
  intros Hdef. eexists _, _, _. split.
  - unfold SearchNeighbours.
    apply (SearchNeighbours_scheduled_result this index); [exact Hdef|reflexivity].
  - split; [apply length_output; exact Hdef|].
    split; [apply length_output; exact Hdef|].
    intros i Hi results. split; [apply length_found; assumption|].
    split; [eapply length_block_of; eauto; apply length_output; exact Hdef|].
    split; [eapply length_block_of; eauto; apply length_output; exact Hdef|].
    split.
    + apply (block_of_output this index query nbQuery NN Hdef match_of
               IndMatch_zero pvec_indices i Hi).
    + apply (block_of_output this index query nbQuery NN Hdef (fun _ => fst)
               DistanceType_zero pvec_distances i Hi).
Qed.


Lemma ptr_add_0 (p : pointer) : ptr_add p 0 = p.
Proof. destruct p as [r o]. unfold ptr_add. simpl. f_equal. lia. Qed.

Lemma efSearch_eq NN nbQuery :
  0 <= NN < 2 ^ 63 -> 0 <= nbQuery <= INT_MAX ->
  efSearch NN nbQuery = (if NN <=? 2 then 16 else Z.max (2 * NN) nbQuery)
  /\ NN <= efSearch NN nbQuery.
Proof.
  intros HNN Hn. unfold efSearch.
  assert (INT_MAX < SIZE_MODULUS) by reflexivity.
  assert (SIZE_MODULUS = 2 * 2 ^ 63) by reflexivity.
  destruct (NN <=? 2) eqn:E.
  - apply Z.leb_le in E. lia.
  - apply Z.leb_gt in E.
    rewrite (to_size_t_id (NN * 2)) by (unfold is_size_t; lia).
    rewrite (to_size_t_id nbQuery) by (unfold is_size_t; lia).
    lia.
Qed.

(** C7 (as amended).  A batch sets the breadth once, before its first
    search, to 16 when [NN <= 2] and to [max(2 * NN, nbQuery)] when
    [NN > 2]; every search of the batch then asks for [NN] neighbours under
    that breadth.  For [NN < 2^63] (so that [NN * 2] does not wrap) the
    breadth is at least [NN]. *)
Theorem SearchNeighbours_breadth (this : HNSWMatcher) index query nbQuery
    pvec_indices pvec_distances NN :
  batch_defined this index query nbQuery NN ->
  NN < 2 ^ 63 ->
  efSearch NN nbQuery = (if NN <=? 2 then 16 else Z.max (2 * NN) nbQuery)
  /\ NN <= efSearch NN nbQuery
  /\ exists this' indices distances,
       SearchNeighbours this query nbQuery pvec_indices pvec_distances NN
       = Done (true, this', indices, distances,
               call_setEf (efSearch NN nbQuery)
                 :: ((fun i => call_searchKnn (ptr_add query (dimension_ this * i)) NN)
                       <$> seqZ 0 nbQuery))
       /\ HNSW_matcher_ this' = Some (setEf index (efSearch NN nbQuery)).
Proof.
  intros Hdef HNN.
  pose proof Hdef as (_ & HNN' & Hn & _).
  destruct (efSearch_eq NN nbQuery) as [E1 E2]; [lia|exact Hn|].
  split; [exact E1|]. split; [exact E2|].
  eexists _, _, _. split.
  - unfold SearchNeighbours.
    apply (SearchNeighbours_scheduled_result this index); [exact Hdef|reflexivity].
  - reflexivity.
Qed.

(** C8.  A batch stores the results of query [i] in block [i]: the entry
    of its [k]-th nearest neighbour is at slot
    [i * NN + NN - (number found) + k], carries [i] as its query index, and
    the two output vectors are the same for every order in which the
    iterations of the loop complete.  With [NN = 1], slot 0 holds the
    neighbour and the distance that [SearchNeighbour] returns for the first
    query. *)
Theorem SearchNeighbours_order_preserved (this : HNSWMatcher) index query nbQuery
    pvec_indices pvec_distances NN :
  batch_defined this index query nbQuery NN ->
  exists indices distances calls,
    SearchNeighbours this query nbQuery pvec_indices pvec_distances NN
    = Done (true, searched this index nbQuery NN, indices, distances, calls)
    /\ (forall i k e,
          0 <= i < nbQuery ->
          found this index query nbQuery NN i !! k = Some e ->
          let p := (Z.to_nat (i * NN + NN)
                    - length (found this index query nbQuery NN i) + k)%nat in
          indices !! p = Some (match_of i e)
          /\ distances !! p = Some e.1
          /\ i_ (match_of i e) = i)
    /\ (forall schedule,
          Permutation schedule (seqZ 0 nbQuery) ->
          exists calls',
            SearchNeighbours_scheduled schedule this query nbQuery
              pvec_indices pvec_distances NN
            = Done (true, searched this index nbQuery NN, indices, distances, calls')
            /\ Permutation calls calls')
    /\ (NN = 1 -> 1 <= nbQuery ->
        searchKnn (setEf index 16) query 1 <> [] ->
        forall indice distance,
        exists res,
          SearchNeighbour this query indice distance
          = Done (true, searched this index nbQuery NN, to_int res.2, res.1,
                  [call_setEf 16; call_searchKnn query 1])
          /\ indices !! 0%nat = Some {| i_ := 0; j_ := to_IndexT res.2 |}
          /\ distances !! 0%nat = Some res.1).
Proof.
  intros Hdef. eexists _, _, _. split; [|split; [|split]].
  - unfold SearchNeighbours.
    apply (SearchNeighbours_scheduled_result this index); [exact Hdef|reflexivity].
  - intros i k e Hi He p.
    pose proof Hdef as (Hidx & HNN & Hn & Hfit & Hoff & Hknn).
    assert (Hin : i ∈ seqZ 0 nbQuery) by (apply elem_of_seqZ; lia).
    assert (Hk : (k < length (found this index query nbQuery NN i))%nat)
      by (eapply lookup_lt_Some; exact He).
    assert (INT_MAX < SIZE_MODULUS) by reflexivity.
    subst p. unfold found in *.
    fold (first_slot (setEf index (efSearch NN nbQuery)) query (dimension_ this) NN i).
    rewrite !(lookup_write_all_in _ _ _ NN nbQuery HNN Hn Hfit Hknn);
      try assumption; try (apply seqZ_in_range); try (apply length_resized; lia).
    rewrite !list_lookup_fmap, He. cbn [fmap option_fmap option_map match_of i_].
    split; [reflexivity|]. split; [reflexivity|].
    apply to_IndexT_id. unfold INT_MAX in Hn. lia.
  - intros schedule Hperm. eexists. split.
    + apply (SearchNeighbours_scheduled_result this index); [exact Hdef|exact Hperm].
    + constructor. apply fmap_Permutation. symmetry. exact Hperm.
  - intros -> Hn1 Hne indice distance.
    pose proof Hdef as (Hidx & HNN & Hn & Hfit & Hoff & Hknn).
    assert (Hef : efSearch 1 nbQuery = 16) by reflexivity.
    specialize (Hknn 0 ltac:(lia)).
    rewrite Z.mul_0_r, ptr_add_0, Hef in Hknn.
    destruct (searchKnn (setEf index 16) query 1) as [|res [|res' rest]] eqn:Eq;
      [contradiction| |cbn [length] in Hknn; lia].
    exists res.
    assert (Hfound : found this index query nbQuery 1 0 = [res]).
    { unfold found, neighbours. rewrite Z.mul_0_r, ptr_add_0, Hef, Eq. reflexivity. }
    assert (INT_MAX < SIZE_MODULUS) by reflexivity.
    split; [|split].
    + unfold SearchNeighbour, searched. rewrite Hidx. cbv zeta. rewrite Eq, Hef.
      reflexivity.
    + pose proof (lookup_write_all_in (setEf index (efSearch 1 nbQuery)) query
                    (dimension_ this) 1 nbQuery HNN Hn Hfit
                    (proj2 (proj2 (proj2 (proj2 (proj2 Hdef))))) match_of
                    (seqZ 0 nbQuery) 0 0
                    (resized nbQuery 1 IndMatch_zero pvec_indices)
                    (seqZ_in_range nbQuery)) as Hl.
      unfold first_slot in Hl. fold (found this index query nbQuery 1 0) in Hl.
      rewrite Hfound in Hl. cbn [length] in Hl.
      change (Z.to_nat (0 * 1 + 1) - 1 + 0)%nat with 0%nat in Hl.
      rewrite Hl; [reflexivity|apply length_resized; lia|apply elem_of_seqZ; lia|lia].
    + pose proof (lookup_write_all_in (setEf index (efSearch 1 nbQuery)) query
                    (dimension_ this) 1 nbQuery HNN Hn Hfit
                    (proj2 (proj2 (proj2 (proj2 (proj2 Hdef))))) (fun _ => fst)
                    (seqZ 0 nbQuery) 0 0
                    (resized nbQuery 1 DistanceType_zero pvec_distances)
                    (seqZ_in_range nbQuery)) as Hl.
      unfold first_slot in Hl. fold (found this index query nbQuery 1 0) in Hl.
      rewrite Hfound in Hl. cbn [length] in Hl.
      change (Z.to_nat (0 * 1 + 1) - 1 + 0)%nat with 0%nat in Hl.
      rewrite Hl; [reflexivity|apply length_resized; lia|apply elem_of_seqZ; lia|lia].
Qed.

End BatchTheorems.

(** ** The batch claims on the worked example *)


(** With the exhaustive library a batch is defined as soon as its sizes and
    offsets fit: the library never returns more than [NN] results. *)
Lemma Exhaustive_batch_defined M id
    (this : @HNSWMatcher (Exhaustive.args M id) Exhaustive.lib)
    index query nbQuery NN :
  HNSW_matcher_ this = Some index ->
  0 <= NN < SIZE_MODULUS ->
  0 <= nbQuery <= INT_MAX ->
  nbQuery * NN < SIZE_MODULUS ->
  (forall i, 0 <= i < nbQuery -> is_int (dimension_ this * i)) ->
  batch_defined this index query nbQuery NN.
Proof.
  intros Hidx HNN Hn Hfit Hoff. unfold batch_defined.
  split_and!; try assumption; try lia.
  intros i Hi.
  pose proof (Exhaustive_search_length M id
                (Exhaustive.set_ef index (efSearch NN nbQuery))
                (ptr_add query (dimension_ this * i)) NN (proj1 HNN)) as Hlen.
  apply Nat2Z.inj_le in Hlen. rewrite Z2Nat.id in Hlen by lia. exact Hlen.
Qed.

(** Two queries, three neighbours each, against the four descriptors. *)
Lemma example_batch_defined :
  batch_defined (built L2_HNSW c_int 4) (built_index L2_HNSW c_int 4)
    (two_queries L2_HNSW c_int) 2 3.
Proof.
  apply Exhaustive_batch_defined.
  - reflexivity.
  - split; [lia|reflexivity].
  - split; [lia|discriminate].
  - reflexivity.
  - intros i Hi. unfold is_int, INT_MIN, INT_MAX. cbn [dimension_ built]. simpl. lia.
Defined.

(** C1 fails as stated: over a dataset of one descriptor, a batch of one
    query with [NN = 2] returns a block of two entries, not of
    [min(2, 1) = 1]; the neighbour found is in the second slot and the first
    is a value-initialised entry. *)
Lemma SearchNeighbours_block_exceeds_dataset :
  Build (fresh L2_HNSW c_int) (descriptors L2_HNSW c_int) 1 4
  = Done (true, built L2_HNSW c_int 1,
          [call_new {| space_class := L2SpaceI; space_dim := 4 |} 1 16 100;
           call_addPoint (descriptors L2_HNSW c_int) 0])
  /\ SearchNeighbours (built L2_HNSW c_int 1) (two_queries L2_HNSW c_int) 1 [] [] 2
     = Done (true,
             searched (built L2_HNSW c_int 1) (built_index L2_HNSW c_int 1) 1 2,
             [IndMatch_zero; {| i_ := 0; j_ := 0 |}],
             [0; 25],
             [call_setEf 16; call_searchKnn (two_queries L2_HNSW c_int) 2])
  /\ length [IndMatch_zero; {| i_ := 0; j_ := 0 |}] <> Z.to_nat (Z.min 2 1).
Proof.
  split; [reflexivity|]. split; [reflexivity|]. discriminate.
Qed.

Lemma SearchNeighbours_block_layout_witness :
  let this := built L2_HNSW c_int 4 in
  let index : @HierarchicalNSW (Exhaustive.args L2_HNSW c_int) Exhaustive.lib :=
    built_index L2_HNSW c_int 4 in
  let query := two_queries L2_HNSW c_int in
  batch_defined this index query 2 3 /\
  exists indices distances calls,
    SearchNeighbours this query 2 [] [] 3
    = Done (true, searched this index 2 3, indices, distances, calls)
    /\ length indices = Z.to_nat (2 * 3)
    /\ length distances = Z.to_nat (2 * 3)
    /\ forall i, 0 <= i < 2 ->
       let results := found this index query 2 3 i in
       (length results <= Z.to_nat 3)%nat
       /\ length (block_of 3 i indices) = Z.to_nat 3
       /\ length (block_of 3 i distances) = Z.to_nat 3
       /\ block_of 3 i indices
          = take (Z.to_nat 3 - length results)
                 (block_of 3 i (resized 2 3 IndMatch_zero []))
            ++ (match_of i <$> results)
       /\ block_of 3 i distances
          = take (Z.to_nat 3 - length results)
                 (block_of 3 i (resized 2 3 DistanceType_zero []))
            ++ (fst <$> results).
Proof.
  intros this index query. split; [exact example_batch_defined|].
  exact (SearchNeighbours_block_layout this index query 2 [] [] 3 example_batch_defined).
Defined.



(** C7 fails as stated: with [NN = 2] the batch sets the breadth to 16,
    with [NN = 3] (and one query) to 6, so the breadth is not the larger of
    [NN] and one fixed floor; and with [NN = 2^63] the product [NN * 2]
    wraps to 0, so the breadth [efSearch (2^63) 2 = 2] is below [NN]. *)
Lemma breadth_is_not_max_of_k_and_floor :
  (exists indices distances,
     SearchNeighbours (built L2_HNSW c_int 4) (two_queries L2_HNSW c_int) 1 [] [] 2
     = Done (true,
             searched (built L2_HNSW c_int 4) (built_index L2_HNSW c_int 4) 1 2,
             indices, distances,
             [call_setEf 16; call_searchKnn (two_queries L2_HNSW c_int) 2]))
  /\
  (exists indices distances,
     SearchNeighbours (built L2_HNSW c_int 4) (two_queries L2_HNSW c_int) 1 [] [] 3
     = Done (true,
             searched (built L2_HNSW c_int 4) (built_index L2_HNSW c_int 4) 1 3,
             indices, distances,
             [call_setEf 6; call_searchKnn (two_queries L2_HNSW c_int) 3]))
  /\ ~ (exists floor, efSearch 2 1 = Z.max 2 floor /\ efSearch 3 1 = Z.max 3 floor)
  /\ efSearch (2 ^ 63) 2 = 2.
Proof.
  split; [eexists _, _; reflexivity|].
  split; [eexists _, _; reflexivity|].
  split; [|reflexivity].
  intros (floor & H2 & H3).
  change (efSearch 2 1) with 16 in H2. change (efSearch 3 1) with 6 in H3. lia.
Qed.

Lemma SearchNeighbours_breadth_witness :
  let this := built L2_HNSW c_int 4 in
  let index : @HierarchicalNSW (Exhaustive.args L2_HNSW c_int) Exhaustive.lib :=
    built_index L2_HNSW c_int 4 in
  let query := two_queries L2_HNSW c_int in
  batch_defined this index query 2 3 /\ 3 < 2 ^ 63 /\
  efSearch 3 2 = (if 3 <=? 2 then 16 else Z.max (2 * 3) 2)
  /\ 3 <= efSearch 3 2
  /\ exists this' indices distances,
       SearchNeighbours this query 2 [] [] 3
       = Done (true, this', indices, distances,
               call_setEf (efSearch 3 2)
                 :: ((fun i => call_searchKnn (ptr_add query (dimension_ this * i)) 3)
                       <$> seqZ 0 2))
       /\ HNSW_matcher_ this' = Some (setEf index (efSearch 3 2)).
Proof.
  intros this index query. split; [exact example_batch_defined|].
  split; [reflexivity|].
  exact (SearchNeighbours_breadth this index query 2 [] [] 3 example_batch_defined eq_refl).
Defined.

(** Two queries, one neighbour each. *)
Lemma example_batch_defined_1 :
  batch_defined (built L2_HNSW c_int 4) (built_index L2_HNSW c_int 4)
    (two_queries L2_HNSW c_int) 2 1.
Proof.
  apply Exhaustive_batch_defined.
  - reflexivity.
  - split; [lia|reflexivity].
  - split; [lia|discriminate].
  - reflexivity.
  - intros i Hi. unfold is_int, INT_MIN, INT_MAX. cbn [dimension_ built]. simpl. lia.
Defined.

Lemma SearchNeighbours_order_preserved_witness :
  let this := built L2_HNSW c_int 4 in
  let index : @HierarchicalNSW (Exhaustive.args L2_HNSW c_int) Exhaustive.lib :=
    built_index L2_HNSW c_int 4 in
  let query := two_queries L2_HNSW c_int in
  batch_defined this index query 2 1 /\
  searchKnn (setEf index 16) query 1 <> [] /\
  exists indices distances calls,
    SearchNeighbours this query 2 [] [] 1
    = Done (true, searched this index 2 1, indices, distances, calls)
    /\ (forall i k e,
          0 <= i < 2 ->
          found this index query 2 1 i !! k = Some e ->
          let p := (Z.to_nat (i * 1 + 1) - length (found this index query 2 1 i) + k)%nat in
          indices !! p = Some (match_of i e)
          /\ distances !! p = Some e.1
          /\ i_ (match_of i e) = i)
    /\ (forall schedule,
          Permutation schedule (seqZ 0 2) ->
          exists calls',
            SearchNeighbours_scheduled schedule this query 2 [] [] 1
            = Done (true, searched this index 2 1, indices, distances, calls')
            /\ Permutation calls calls')
    /\ (forall indice distance,
        exists res,
          SearchNeighbour this query indice distance
          = Done (true, searched this index 2 1, to_int res.2, res.1,
                  [call_setEf 16; call_searchKnn query 1])
          /\ indices !! 0%nat = Some {| i_ := 0; j_ := to_IndexT res.2 |}
          /\ distances !! 0%nat = Some res.1).
Proof.
  intros this index query. split; [exact example_batch_defined_1|].
  assert (Hne : searchKnn (setEf index 16) query 1 <> []) by discriminate.
  split; [exact Hne|].
  destruct (SearchNeighbours_order_preserved this index query 2 [] [] 1
              example_batch_defined_1)
    as (indices & distances & calls & Hrun & Hslots & Horder & Hone).
  exists indices, distances, calls.
  split; [exact Hrun|]. split; [exact Hslots|]. split; [exact Horder|].
  apply Hone; [reflexivity|lia|exact Hne].
Defined.

(** ** Sequences of queries on one matcher *)
Section QuerySequences.

Context {T : TemplateArgs} {L : hnswlib T}.


Context {S : setEf_overwrites}.

Lemma run_query_owns this0 index this c this' :
  owns_up_to_ef this0 index this ->
  run_query this c = Done this' ->
  owns_up_to_ef this0 index this'.
Proof.
  intros (Hd & Hm & index' & Hi & He) Hrun.
  destruct c as [query indice distance|query nbQuery pi pd NN]; cbn [run_query] in Hrun.
  - unfold SearchNeighbour in Hrun. rewrite Hi in Hrun. cbv zeta in Hrun.
    destruct (priority_queue _) as [|res rest]; [discriminate Hrun|].
    cbn in Hrun. injection Hrun as <-.
    split; [exact Hd|]. split; [exact Hm|].
    eexists. split; [reflexivity|]. intros ef. rewrite setEf_setEf. apply He.
  - unfold SearchNeighbours, SearchNeighbours_scheduled in Hrun.
    rewrite Hi in Hrun. cbv zeta in Hrun.
    destruct (search_queries _ _ _ _ _ _ _ _) as [[[indices distances] calls]|];
      [|discriminate Hrun].
    cbn in Hrun. injection Hrun as <-.
    split; [exact Hd|]. split; [exact Hm|].
    eexists. split; [reflexivity|]. intros ef. rewrite setEf_setEf. apply He.
Qed.

Lemma run_queries_owns this0 index cs :
  forall this this',
  owns_up_to_ef this0 index this ->
  run_queries this cs = Done this' ->
  owns_up_to_ef this0 index this'.
Proof.
  induction cs as [|c rest IH]; intros this this' Hown Hrun; cbn [run_queries] in Hrun.
  - injection Hrun as <-. exact Hown.
  - destruct (run_query this c) as [this1|] eqn:E; [|discriminate Hrun].
    cbn in Hrun. apply (IH this1); [|exact Hrun].
    eapply run_query_owns; eassumption.
Qed.


(** C10.  [SearchNeighbour] sets the breadth to 16 and then searches for
    one neighbour, on every call; so when it returns a neighbour for a
    query, it returns the same database id and the same distance for that
    query again after any sequence of [SearchNeighbours] and
    [SearchNeighbour] calls on the same matcher, whatever breadth those
    calls left behind. *)
Theorem SearchNeighbour_repeatable (this : HNSWMatcher) index query
    indice distance cs this2 indice2 distance2 :
  HNSW_matcher_ this = Some index ->
  searchKnn (setEf index 16) query 1 <> [] ->
  run_queries (searched_one this index) cs = Done this2 ->
  exists res,
    SearchNeighbour this query indice distance
    = Done (true, searched_one this index, to_int res.2, res.1,
            [call_setEf 16; call_searchKnn query 1])
    /\ SearchNeighbour this2 query indice2 distance2
       = Done (true, searched_one this index, to_int res.2, res.1,
               [call_setEf 16; call_searchKnn query 1]).
Proof.
  intros Hidx Hne Hrun.
  assert (Hq : priority_queue (searchKnn (setEf index 16) query 1) <> []).
  { intros Hnil. apply Hne. apply (f_equal length) in Hnil.
    rewrite length_priority_queue in Hnil.
    destruct (searchKnn (setEf index 16) query 1); [reflexivity|discriminate Hnil]. }
  destruct (priority_queue (searchKnn (setEf index 16) query 1))
    as [|res rest] eqn:Eq; [contradiction|].
  exists res.
  assert (Hown : owns_up_to_ef this index this2).
  { apply (run_queries_owns this index cs (searched_one this index)); [|exact Hrun].
    split; [reflexivity|]. split; [reflexivity|].
    eexists. split; [reflexivity|]. intros ef. apply setEf_setEf. }
  destruct Hown as (Hd & Hm & index2 & Hi2 & He2).
  split.
  - unfold SearchNeighbour. rewrite Hidx. cbv zeta. rewrite Eq. reflexivity.
  - unfold SearchNeighbour. rewrite Hi2. cbv zeta. rewrite (He2 16), Eq.
    unfold searched_one. rewrite Hd, Hm. reflexivity.
Qed.

End QuerySequences.

Lemma Exhaustive_setEf_overwrites M id :
  @setEf_overwrites (Exhaustive.args M id) Exhaustive.lib.
Proof. intros index a b. reflexivity. Qed.

Lemma SearchNeighbour_repeatable_witness :
  let this := built L2_HNSW c_int 4 in
  let index : @HierarchicalNSW (Exhaustive.args L2_HNSW c_int) Exhaustive.lib :=
    built_index L2_HNSW c_int 4 in
  let query := two_queries L2_HNSW c_int in
  HNSW_matcher_ this = Some index /\
  searchKnn (setEf index 16) query 1 <> [] /\
  run_queries (searched_one this index)
    [do_SearchNeighbours query 2 [] [] 3;
     do_SearchNeighbour (ptr_add query 4) 0 0;
     do_SearchNeighbours query 1 [] [] 4]
  = Done (searched this index 1 4) /\
  exists res,
    SearchNeighbour this query (-1) (-1)
    = Done (true, searched_one this index, to_int res.2, res.1,
            [call_setEf 16; call_searchKnn query 1])
    /\ SearchNeighbour (searched this index 1 4) query (-1) (-1)
       = Done (true, searched_one this index, to_int res.2, res.1,
               [call_setEf 16; call_searchKnn query 1]).
Proof.
  intros this index query.
  assert (Hne : searchKnn (setEf index 16) query 1 <> []) by discriminate.
  split; [reflexivity|]. split; [exact Hne|]. split; [reflexivity|].
  exact (@SearchNeighbour_repeatable _ _ (Exhaustive_setEf_overwrites L2_HNSW c_int)
           this index query (-1) (-1)
           [do_SearchNeighbours query 2 [] [] 3;
            do_SearchNeighbour (ptr_add query 4) 0 0;
            do_SearchNeighbours query 1 [] [] 4]
           (searched this index 1 4) (-1) (-1)
           eq_refl Hne eq_refl).
Defined.

(** ** Further properties of the matcher *)
Section MatcherExtras.

Context {T : TemplateArgs} {L : hnswlib T}.

(** The insertion loop stops at the first offset that overflows. *)
Lemma add_points_Undefined (dataset : pointer) dimension vector_ids :
  forall index calls,
  Exists (fun vector_id => ~ is_int (dimension * vector_id)) vector_ids ->
  add_points dataset dimension vector_ids index calls = Undefined.
Proof.
  induction vector_ids as [|v rest IH]; intros index calls Hex.
  - inversion Hex.
  - cbn [add_points]. unfold int_mul.
    destruct (in_int (dimension * v)) eqn:E.
    + cbn [mbind outcome_bind]. apply IH.
      inversion Hex as [? ? Hv|? ? Hrest]; subst; [|exact Hrest].
      apply in_int_spec in E. contradiction.
    + reflexivity.
Qed.

(** The insertion loop over rows whose offsets fit [int] and whose
    positions are non-negative: every row of the schedule is inserted under
    its position, in the order of the schedule. *)
Lemma add_points_rows (dataset : pointer) dimension schedule :
  forall index calls,
  Forall (fun i => is_int (dimension * i) /\ 0 <= i < SIZE_MODULUS) schedule ->
  add_points dataset dimension schedule index calls =
  Done (foldl (fun index i => addPoint index (ptr_add dataset (dimension * i)) i)
              index schedule,
        calls ++ ((fun i => call_addPoint (ptr_add dataset (dimension * i)) i)
                    <$> schedule)).
Proof.
  induction schedule as [|v rest IH]; intros index calls Hall.
  - cbn. rewrite app_nil_r. reflexivity.
  - inversion Hall as [|? ? [Hv Hr] Hrest]; subst.
    cbn [add_points]. rewrite (int_mul_Done _ _ Hv). cbn [mbind outcome_bind].
    rewrite (to_size_t_id v) by exact Hr.
    rewrite IH by assumption. cbn [foldl fmap list_fmap].
    rewrite <- app_assoc. reflexivity.
Qed.

(** X1.  A [Build] over [nbRows >= 1] rows with a handled pairing, whose
    row offsets fit [int], returns [true] whatever the order in which the
    parallel insertion loop runs its iterations: it constructs one index for
    [nbRows] elements with [M = 16] and [ef_construction = 100], inserts
    row 0 first and then the other rows in the order of the schedule, row
    [i] read at [dataset + dimension * i] under the label [i], and the
    matcher owns the index these insertions leave.  So every row is inserted
    exactly once.  What the matcher owned before plays no part: the same
    call on any other matcher gives the same result. *)
Theorem Build_inserts_every_row (this : HNSWMatcher) dataset nbRows dimension space
    (schedule : list Z) :
  1 <= nbRows <= INT_MAX ->
  new_metric dimension = Some space ->
  (forall i, 0 <= i < nbRows -> is_int (dimension * i)) ->
  Permutation schedule (seqZ 1 (nbRows - 1)) ->
  Build_scheduled schedule this dataset nbRows dimension
  = Done (true,
          {| dimension_ := dimension;
             HNSW_metric_ := Some space;
             HNSW_matcher_ :=
               Some (foldl (fun index i =>
                              addPoint index (ptr_add dataset (dimension * i)) i)
                           (new_HierarchicalNSW space nbRows 16 100)
                           (0 :: schedule)) |},
          call_new space nbRows 16 100
            :: ((fun i => call_addPoint (ptr_add dataset (dimension * i)) i)
                  <$> 0 :: schedule))
  /\ Permutation ((fun i => call_addPoint (ptr_add dataset (dimension * i)) i)
                    <$> 0 :: schedule)
                 ((fun i => call_addPoint (ptr_add dataset (dimension * i)) i)
                    <$> seqZ 0 nbRows)
  /\ forall other : HNSWMatcher,
       Build_scheduled schedule other dataset nbRows dimension
       = Build_scheduled schedule this dataset nbRows dimension.
Proof.
  intros Hn Hs Hoff Hperm.
  assert (INT_MAX < SIZE_MODULUS) by reflexivity.
  assert (Hall : Forall (fun i => is_int (dimension * i) /\ 0 <= i < SIZE_MODULUS) schedule).
  { apply Forall_forall. intros v Hv.
    rewrite Hperm in Hv. apply elem_of_seqZ in Hv.
    split; [apply Hoff|]; lia. }
  assert (Hrun : forall that : HNSWMatcher,
            Build_scheduled schedule that dataset nbRows dimension
            = Done (true,
                    {| dimension_ := dimension;
                       HNSW_metric_ := Some space;
                       HNSW_matcher_ :=
                         Some (foldl (fun index i =>
                                        addPoint index (ptr_add dataset (dimension * i)) i)
                                     (new_HierarchicalNSW space nbRows 16 100)
                                     (0 :: schedule)) |},
                    call_new space nbRows 16 100
                      :: ((fun i => call_addPoint (ptr_add dataset (dimension * i)) i)
                            <$> 0 :: schedule))).
  { intros that. unfold Build_scheduled.
    destruct (nbRows <? 1) eqn:E; [apply Z.ltb_lt in E; lia|].
    rewrite Hs. rewrite add_points_rows by exact Hall.
    rewrite (to_size_t_id nbRows) by (unfold is_size_t; lia).
    cbn [mbind outcome_bind foldl fmap list_fmap app].
    rewrite Z.mul_0_r, ptr_add_0. reflexivity. }
  split; [apply Hrun|]. split.
  - apply fmap_Permutation.
    replace (seqZ 0 nbRows) with (0 :: seqZ 1 (nbRows - 1)).
    + constructor. exact Hperm.
    + replace nbRows with (1 + (nbRows - 1)) at 2 by lia.
      rewrite seqZ_app by lia. reflexivity.
  - intros other. rewrite !Hrun. reflexivity.
Qed.

(** X2.  With a handled pairing and a non-negative dimension, [Build] runs
    into signed overflow, and so into undefined behaviour, exactly when the
    offset of the last row, [dimension * (nbRows - 1)], exceeds [INT_MAX]. *)
Theorem Build_overflow (this : HNSWMatcher) dataset nbRows dimension :
  1 <= nbRows <= INT_MAX ->
  0 <= dimension <= INT_MAX ->
  supported = true ->
  (Build this dataset nbRows dimension = Undefined
   <-> INT_MAX < dimension * (nbRows - 1)).
Proof.
  intros Hn Hd Hs.
  destruct (new_metric_supported dimension Hs) as [c Hc].
  split.
  - intros HU. destruct (Z.lt_ge_cases INT_MAX (dimension * (nbRows - 1))) as [|Hle];
      [assumption|exfalso].
    rewrite (Build_supported this dataset nbRows dimension
               {| space_class := c; space_dim := to_size_t dimension |}) in HU;
      [discriminate HU|lia|exact Hc|].
    apply Forall_seqZ. intros v Hv. unfold is_int, INT_MIN. split; [nia|].
    assert (dimension * v <= dimension * (nbRows - 1)) by nia. lia.
  - intros Hover. unfold Build, Build_scheduled.
    destruct (nbRows <? 1) eqn:E; [apply Z.ltb_lt in E; lia|].
    rewrite Hc. rewrite add_points_Undefined; [reflexivity|].
    apply Exists_exists. exists (nbRows - 1). split.
    + apply elem_of_seqZ.
      assert (nbRows <> 1) by (intros ->; rewrite Z.mul_0_r in Hover;
                               unfold INT_MAX in Hover; lia).
      lia.
    + unfold is_int. lia.
Qed.

Lemma pair_lt_irrefl {O : DistanceOrder T} (x : DistanceType * Z) : pair_lt x x = false.
Proof.
  unfold pair_lt. rewrite dist_lt_irrefl. simpl. apply Z.ltb_irrefl.
Qed.

Lemma to_int_id z : 0 <= z <= INT_MAX -> to_int z = z.
Proof.
  intros Hz. unfold to_int, INT_MAX in *.
  rewrite Z.mod_small by lia. lia.
Qed.

(** X3.  On a matcher that owns an index, [SearchNeighbour] is undefined
    when the library finds nothing ([top()] of an empty queue); otherwise it
    returns [true] with one of the pairs the library returned, a greatest
    one under the queue's order, and the index is left with breadth 16.  The
    id comes back unchanged when it fits [int]. *)
Theorem SearchNeighbour_returns_top {O : DistanceOrder T} (this : HNSWMatcher)
    index query indice distance :
  HNSW_matcher_ this = Some index ->
  (searchKnn (setEf index 16) query 1 = [] ->
   SearchNeighbour this query indice distance = Undefined)
  /\
  (searchKnn (setEf index 16) query 1 <> [] ->
   exists res,
     SearchNeighbour this query indice distance
     = Done (true, searched_one this index, to_int res.2, res.1,
             [call_setEf 16; call_searchKnn query 1])
     /\ res ∈ searchKnn (setEf index 16) query 1
     /\ (forall e, e ∈ searchKnn (setEf index 16) query 1 -> pair_lt res e = false)
     /\ (0 <= res.2 <= INT_MAX -> to_int res.2 = res.2)).
Proof.
  intros Hidx. split.
  - intros Hnil. unfold SearchNeighbour. rewrite Hidx. cbv zeta.
    rewrite Hnil. reflexivity.
  - intros Hne.
    pose proof (priority_queue_descending (searchKnn (setEf index 16) query 1)) as Hs.
    pose proof (priority_queue_Permutation (searchKnn (setEf index 16) query 1)) as Hp.
    destruct (priority_queue (searchKnn (setEf index 16) query 1))
      as [|res rest] eqn:Eq.
    + apply Permutation_nil in Hp. contradiction.
    + exists res. split; [|split; [|split]].
      * unfold SearchNeighbour. rewrite Hidx. cbv zeta. rewrite Eq. reflexivity.
      * rewrite <- Hp. left.
      * intros e He. rewrite <- Hp in He.
        apply elem_of_cons in He. destruct He as [->|He].
        -- apply pair_lt_irrefl.
        -- inversion Hs as [|? ? _ Hall]; subst.
           rewrite Forall_forall in Hall. apply Hall. exact He.
      * apply to_int_id.
Qed.

Lemma search_queries_calls index query dimension NN schedule :
  forall indices distances calls indices' distances' calls',
  search_queries index query dimension NN schedule indices distances calls
  = Done (indices', distances', calls') ->
  Forall (fun c => is_search_call c = true) calls ->
  Forall (fun c => is_search_call c = true) calls'.
Proof.
  induction schedule as [|i rest IH];
    intros indices distances calls indices' distances' calls' Hrun Hcalls.
  - cbn in Hrun. injection Hrun as <- <- <-. exact Hcalls.
  - cbn [search_queries] in Hrun.
    destruct (search_query index query dimension NN i indices distances)
      as [[[ind1 dist1] c]|] eqn:E; [|discriminate Hrun].
    cbn [mbind outcome_bind] in Hrun.
    apply (IH _ _ _ _ _ _ Hrun).
    apply Forall_app. split; [exact Hcalls|].
    constructor; [|constructor].
    unfold search_query in E.
    destruct (int_mul dimension i) as [off|]; [|discriminate E].
    cbn [mbind outcome_bind] in E.
    destruct (store_results _ _ _ _ _ _) as [[ind2 dist2]|]; [|discriminate E].
    cbn in E. injection E as <- <- <-. reflexivity.
Qed.

Lemma SearchNeighbour_frame (this : HNSWMatcher) query indice distance
    ok this' indice' distance' calls :
  SearchNeighbour this query indice distance
  = Done (ok, this', indice', distance', calls) ->
  search_frame this this' ok calls.
Proof.
  unfold SearchNeighbour, search_frame.
  destruct (HNSW_matcher_ this) as [index|] eqn:Hidx.
  - cbv zeta. destruct (priority_queue _) as [|res rest]; [discriminate|].
    intros [= <- <- <- <- <-]. cbn.
    split_and!; try reflexivity; try (split; discriminate).
    repeat constructor.
  - intros [= <- <- <- <- <-]. rewrite Hidx.
    split_and!; try reflexivity; try tauto. constructor.
Qed.

Lemma SearchNeighbours_frame schedule (this : HNSWMatcher) query nbQuery
    pvec_indices pvec_distances NN ok this' indices distances calls :
  SearchNeighbours_scheduled schedule this query nbQuery pvec_indices pvec_distances NN
  = Done (ok, this', indices, distances, calls) ->
  search_frame this this' ok calls.
Proof.
  unfold SearchNeighbours_scheduled, search_frame.
  destruct (HNSW_matcher_ this) as [index|] eqn:Hidx.
  - cbv zeta.
    destruct (search_queries _ _ _ _ _ _ _ _) as [[[ind1 dist1] calls1]|] eqn:E;
      [|discriminate].
    cbn [mbind outcome_bind]. intros [= <- <- <- <- <-]. cbn.
    split_and!; try reflexivity; try (split; discriminate).
    eapply search_queries_calls; [exact E|]. repeat constructor.
  - intros [= <- <- <- <- <-]. rewrite Hidx.
    split_and!; try reflexivity; try tauto. constructor.
Qed.

(** X4.  A search never rebuilds: whenever [SearchNeighbour] or
    [SearchNeighbours] (its iterations in any order) returns, [dimension_]
    and the metric space are as before, the matcher owns an index exactly if
    it did before, the flag is [false] exactly if it owned none, and the
    only library calls made are [setEf] and [searchKnn] - no index is
    constructed and no point inserted. *)
Theorem searches_never_rebuild (this : HNSWMatcher) :
  (forall query indice distance ok this' indice' distance' calls,
     SearchNeighbour this query indice distance
     = Done (ok, this', indice', distance', calls) ->
     search_frame this this' ok calls)
  /\
  (forall schedule query nbQuery pvec_indices pvec_distances NN
          ok this' indices distances calls,
     SearchNeighbours_scheduled schedule this query nbQuery
       pvec_indices pvec_distances NN
     = Done (ok, this', indices, distances, calls) ->
     search_frame this this' ok calls).
Proof.
  split.
  - intros. eapply SearchNeighbour_frame. eassumption.
  - intros. eapply SearchNeighbours_frame. eassumption.
Qed.

Lemma run_query_frame (this : HNSWMatcher) c this' :
  run_query this c = Done this' ->
  dimension_ this' = dimension_ this
  /\ HNSW_metric_ this' = HNSW_metric_ this
  /\ (HNSW_matcher_ this' = None <-> HNSW_matcher_ this = None).
Proof.
  destruct c as [query indice distance|query nbQuery pi pd NN]; cbn [run_query].
  - destruct (SearchNeighbour this query indice distance)
      as [[[[[ok this1] i1] d1] calls]|] eqn:E; [|discriminate].
    cbn. intros [= <-]. apply SearchNeighbour_frame in E.
    destruct E as (H1 & H2 & H3 & _). auto.
  - destruct (SearchNeighbours this query nbQuery pi pd NN)
      as [[[[[ok this1] i1] d1] calls]|] eqn:E; [|discriminate].
    cbn. intros [= <-]. apply SearchNeighbours_frame in E.
    destruct E as (H1 & H2 & H3 & _). auto.
Qed.

Lemma new_metric_Some dimension space :
  new_metric dimension = Some space ->
  supported = true /\ space_dim space = to_size_t dimension.
Proof.
  intros H. split.
  - destruct supported eqn:E; [reflexivity|].
    rewrite (new_metric_unsupported dimension E) in H. discriminate H.
  - unfold new_metric in H.
    destruct MetricType; repeat (destruct (ctype_eqb _ _)); try discriminate H;
      injection H as <-; reflexivity.
Qed.

(** X5.  Every matcher a program can hold owns its metric space and its
    index together or not at all, and a metric space it owns is one of a
    handled pairing over [dimension_] components: so a matcher of an
    unhandled pairing never owns an index, and [dimension_] never disagrees
    with an index that is owned. *)
Theorem reachable_invariant (this : HNSWMatcher) :
  reachable this ->
  (HNSW_matcher_ this = None <-> HNSW_metric_ this = None)
  /\ (forall space, HNSW_metric_ this = Some space ->
        supported = true /\ space_dim space = to_size_t (dimension_ this))
  /\ (supported = false -> HNSW_matcher_ this = None).
Proof.
  intros Hr.
  assert (H : (HNSW_matcher_ this = None <-> HNSW_metric_ this = None)
              /\ (forall space, HNSW_metric_ this = Some space ->
                    supported = true /\ space_dim space = to_size_t (dimension_ this))).
  { induction Hr as [d|this schedule dataset nbRows dimension ok this' calls _ [IH1 IH2] _ HB
                    |this c this' _ [IH1 IH2] HQ].
    - split; [tauto|]. intros space Hs. discriminate Hs.
    - unfold Build_scheduled in HB. destruct (nbRows <? 1).
      + injection HB as <- <- <-. split; [tauto|]. intros space Hs. discriminate Hs.
      + destruct (new_metric dimension) as [space|] eqn:Hm.
        * destruct (add_points _ _ _ _ _) as [[index calls']|]; [|discriminate HB].
          cbn in HB. injection HB as <- <- <-. cbn. split.
          -- split; discriminate.
          -- intros space' [= <-]. apply new_metric_Some. exact Hm.
        * injection HB as <- <- <-. cbn. split; [exact IH1|].
          intros space Hs. destruct (IH2 space Hs) as [Hsup _].
          rewrite (supported_of_new_metric dimension Hm) in Hsup. discriminate Hsup.
    - apply run_query_frame in HQ. destruct HQ as (Hd & Hm & Hi).
      rewrite Hd, Hm. split; [tauto|exact IH2]. }
  destruct H as [H1 H2]. split; [exact H1|]. split; [exact H2|].
  intros Hs. apply H1. destruct (HNSW_metric_ this) as [space|] eqn:E; [|reflexivity].
  destruct (H2 space eq_refl) as [Hsup _]. rewrite Hs in Hsup. discriminate Hsup.
Qed.

Lemma found_Permutation (this : HNSWMatcher) index query nbQuery NN i :
  Permutation (found this index query nbQuery NN i)
    (searchKnn (setEf index (efSearch NN nbQuery))
       (ptr_add query (dimension_ this * i)) NN).
Proof.
  unfold found, neighbours. rewrite reverse_Permutation.
  apply priority_queue_Permutation.
Qed.

(** When every query finds [NN] neighbours, nothing of the vector the
    batch starts from is left. *)
Lemma write_all_full {X} (f : Z -> DistanceType * Z -> X)
    index query dimension NN nbQuery (v v' : list X) :
  0 <= NN < SIZE_MODULUS ->
  0 <= nbQuery <= INT_MAX ->
  nbQuery * NN < SIZE_MODULUS ->
  (forall i, 0 <= i < nbQuery ->
     Z.of_nat (length (searchKnn index (ptr_add query (dimension * i)) NN)) = NN) ->
  length v = Z.to_nat (nbQuery * NN) ->
  length v' = Z.to_nat (nbQuery * NN) ->
  write_all index query dimension NN f (seqZ 0 nbQuery) v
  = write_all index query dimension NN f (seqZ 0 nbQuery) v'.
Proof.
  intros HNN Hn Hfit Hfull Hv Hv'.
  assert (Hknn : forall i, 0 <= i < nbQuery ->
            Z.of_nat (length (searchKnn index (ptr_add query (dimension * i)) NN)) <= NN)
    by (intros i Hi; rewrite (Hfull i Hi); lia).
  assert (Hall : Forall (fun i => 0 <= i < nbQuery) (seqZ 0 nbQuery))
    by (apply Forall_seqZ; intros; lia).
  apply list_eq. intros p.
  destruct (decide (p < Z.to_nat (nbQuery * NN))%nat) as [Hp|Hp].
  - assert (HNN1 : 0 < NN) by nia.
    pose proof (Z.div_mod (Z.of_nat p) NN ltac:(lia)) as Hdm.
    pose proof (Z.mod_pos_bound (Z.of_nat p) NN HNN1) as Hmb.
    set (i := Z.of_nat p / NN) in *.
    assert (Hi : 0 <= i < nbQuery) by nia.
    assert (Hlen : length (neighbours index query dimension NN i) = Z.to_nat NN).
    { rewrite length_neighbours. specialize (Hfull i Hi). lia. }
    assert (Hfs : first_slot index query dimension NN i = Z.to_nat (i * NN)).
    { unfold first_slot. rewrite Hlen. nia. }
    replace p with (first_slot index query dimension NN i
                    + (p - Z.to_nat (i * NN)))%nat by (rewrite Hfs; nia).
    rewrite !(lookup_write_all_in index query dimension NN nbQuery HNN Hn Hfit Hknn);
      try assumption; try (apply elem_of_seqZ; lia); try (rewrite Hlen; nia).
    reflexivity.
  - rewrite !lookup_ge_None_2; [reflexivity|..];
      rewrite (length_write_all index query dimension NN nbQuery HNN Hknn);
      try assumption; lia.
Qed.

(** X6.  When every query of a batch finds [NN] neighbours, the batch
    returns the same flag, matcher, outputs and calls whatever the two output
    vectors held when it was called. *)
Theorem full_results_ignore_old_content (this : HNSWMatcher) index query nbQuery NN
    pvec_indices pvec_distances pvec_indices' pvec_distances' :
  batch_defined this index query nbQuery NN ->
  (forall i, 0 <= i < nbQuery ->
     Z.of_nat (length (searchKnn (setEf index (efSearch NN nbQuery))
                                 (ptr_add query (dimension_ this * i)) NN)) = NN) ->
  SearchNeighbours this query nbQuery pvec_indices pvec_distances NN
  = SearchNeighbours this query nbQuery pvec_indices' pvec_distances' NN.
Proof.
  intros Hdef Hfull. unfold SearchNeighbours.
  rewrite !(SearchNeighbours_scheduled_result this index query nbQuery NN _ _ Hdef
              (seqZ 0 nbQuery)) by reflexivity.
  destruct Hdef as (Hidx & HNN & Hn & Hfit & Hoff & Hknn).
  assert (INT_MAX < SIZE_MODULUS) by reflexivity.
  rewrite (write_all_full match_of _ _ _ NN nbQuery
             (resized nbQuery NN IndMatch_zero pvec_indices)
             (resized nbQuery NN IndMatch_zero pvec_indices'));
    try assumption; try (apply length_resized; lia).
  rewrite (write_all_full (fun _ => fst) _ _ _ NN nbQuery
             (resized nbQuery NN DistanceType_zero pvec_distances)
             (resized nbQuery NN DistanceType_zero pvec_distances'));
    try assumption; try (apply length_resized; lia).
  reflexivity.
Qed.

(** X7.  A batch reports what the library returned, each result once: in
    each block, the slots from [NN - (number returned)] on hold the
    library's results for that query, up to their order. *)
Theorem results_reported_once (this : HNSWMatcher) index query nbQuery
    pvec_indices pvec_distances NN :
  batch_defined this index query nbQuery NN ->
  exists indices distances calls,
    SearchNeighbours this query nbQuery pvec_indices pvec_distances NN
    = Done (true, searched this index nbQuery NN, indices, distances, calls)
    /\ forall i, 0 <= i < nbQuery ->
       let returned := searchKnn (setEf index (efSearch NN nbQuery))
                         (ptr_add query (dimension_ this * i)) NN in
       Permutation (drop (Z.to_nat NN - length returned) (block_of NN i indices))
                   (match_of i <$> returned)
       /\ Permutation (drop (Z.to_nat NN - length returned) (block_of NN i distances))
                      (fst <$> returned).
Proof.
  intros Hdef. eexists _, _, _. split.
  - unfold SearchNeighbours.
    apply (SearchNeighbours_scheduled_result this index); [exact Hdef|reflexivity].
  - intros i Hi returned.
    pose proof (length_found this index query nbQuery NN Hdef i Hi) as Hlen.
    pose proof (found_Permutation this index query nbQuery NN i) as Hperm.
    fold returned in Hperm.
    assert (Hr : length returned = length (found this index query nbQuery NN i))
      by (rewrite Hperm; reflexivity).
    pose proof Hdef as (Hidx & HNN & Hn & Hfit & Hoff & Hknn).
    assert (INT_MAX < SIZE_MODULUS) by reflexivity.
    assert (Hdrop : forall {X} (f : Z -> DistanceType * Z -> X) zero v,
              drop (Z.to_nat NN - length returned)
                (block_of NN i
                   (write_all (setEf index (efSearch NN nbQuery)) query
                      (dimension_ this) NN f (seqZ 0 nbQuery)
                      (resized nbQuery NN zero v)))
              = f i <$> found this index query nbQuery NN i).
    { intros X f zero v.
      rewrite (block_of_output this index query nbQuery NN Hdef f zero v i Hi).
      rewrite Hr.
      assert (Hb : length (take (Z.to_nat NN - length (found this index query nbQuery NN i))
                             (block_of NN i (resized nbQuery NN zero v)))
                   = (Z.to_nat NN - length (found this index query nbQuery NN i))%nat).
      { rewrite length_take.
        rewrite (length_block_of this index query nbQuery NN Hdef _ i Hi)
          by (apply length_resized; lia).
        lia. }
      rewrite <- Hb at 1. apply drop_app_length. }
    rewrite !Hdrop. split; apply fmap_Permutation; exact Hperm.
Qed.

End MatcherExtras.

(** ** The further properties on the worked example *)

(** The rows 1, 2, 3 inserted in the order 3, 1, 2. *)
Lemma Build_inserts_every_row_witness :
  let this := fresh L2_HNSW c_int in
  let dataset := descriptors L2_HNSW c_int in
  let space := {| space_class := L2SpaceI; space_dim := 4 |} in
  1 <= 4 <= INT_MAX /\
  @new_metric (Exhaustive.args L2_HNSW c_int) 4 = Some space /\
  Permutation [3; 1; 2] (seqZ 1 (4 - 1)) /\
  Build_scheduled [3; 1; 2] this dataset 4 4
  = Done (true,
          {| dimension_ := 4;
             HNSW_metric_ := Some space;
             HNSW_matcher_ :=
               Some (foldl (fun index i => addPoint index (ptr_add dataset (4 * i)) i)
                           (new_HierarchicalNSW space 4 16 100)
                           [0; 3; 1; 2]) |},
          call_new space 4 16 100
            :: ((fun i => call_addPoint (ptr_add dataset (4 * i)) i) <$> [0; 3; 1; 2]))
  /\ Permutation ((fun i => call_addPoint (ptr_add dataset (4 * i)) i) <$> [0; 3; 1; 2])
                 ((fun i => call_addPoint (ptr_add dataset (4 * i)) i) <$> seqZ 0 4)
  /\ forall other : HNSWMatcher,
       Build_scheduled [3; 1; 2] other dataset 4 4
       = Build_scheduled [3; 1; 2] this dataset 4 4.
Proof.
  intros this dataset space.
  assert (Hn : 1 <= 4 <= INT_MAX) by (unfold INT_MAX; lia).
  assert (Hperm : Permutation [3; 1; 2] (seqZ 1 (4 - 1)))
    by exact (Permutation_cons_append [1; 2] 3).
  split; [exact Hn|]. split; [reflexivity|]. split; [exact Hperm|].
  refine (Build_inserts_every_row this dataset 4 4 space [3; 1; 2] Hn eq_refl _ Hperm).
  intros i Hi. unfold is_int, INT_MIN, INT_MAX. lia.
Defined.

(** 16 777 217 rows of 128 components: the last offset is 2^31. *)
Lemma Build_overflow_witness :
  1 <= 16777217 <= INT_MAX /\ 0 <= 128 <= INT_MAX /\
  @supported (Exhaustive.args L2_HNSW c_int) = true /\
  Build (fresh L2_HNSW c_int) (descriptors L2_HNSW c_int) 16777217 128 = Undefined.
Proof.
  assert (Hn : 1 <= 16777217 <= INT_MAX) by (unfold INT_MAX; lia).
  assert (Hd : 0 <= 128 <= INT_MAX) by (unfold INT_MAX; lia).
  split; [exact Hn|]. split; [exact Hd|]. split; [reflexivity|].
  apply (Build_overflow (fresh L2_HNSW c_int) (descriptors L2_HNSW c_int)
           16777217 128 Hn Hd eq_refl).
  unfold INT_MAX. lia.
Defined.

Lemma SearchNeighbour_returns_top_witness :
  let this := built L2_HNSW c_int 4 in
  let index : @HierarchicalNSW (Exhaustive.args L2_HNSW c_int) Exhaustive.lib :=
    built_index L2_HNSW c_int 4 in
  let query := two_queries L2_HNSW c_int in
  HNSW_matcher_ this = Some index /\
  searchKnn (setEf index 16) query 1 <> [] /\
  exists res,
    SearchNeighbour this query (-1) (-1)
    = Done (true, searched_one this index, to_int res.2, res.1,
            [call_setEf 16; call_searchKnn query 1])
    /\ res ∈ searchKnn (setEf index 16) query 1
    /\ (forall e, e ∈ searchKnn (setEf index 16) query 1 -> pair_lt res e = false)
    /\ (0 <= res.2 <= INT_MAX -> to_int res.2 = res.2).
Proof.
  intros this index query.
  assert (Hne : searchKnn (setEf index 16) query 1 <> []) by discriminate.
  split; [reflexivity|]. split; [exact Hne|].
  exact (proj2 (@SearchNeighbour_returns_top _ _ (Exhaustive_order L2_HNSW c_int)
                  this index query (-1) (-1) eq_refl) Hne).
Defined.

Lemma searches_never_rebuild_witness :
  let this := built L2_HNSW c_int 4 in
  let index : @HierarchicalNSW (Exhaustive.args L2_HNSW c_int) Exhaustive.lib :=
    built_index L2_HNSW c_int 4 in
  let query := two_queries L2_HNSW c_int in
  SearchNeighbours_scheduled [1; 0] this query 2 [] [] 3
  = Done (true, searched this index 2 3,
          [{| i_ := 0; j_ := 3 |}; {| i_ := 0; j_ := 2 |}; {| i_ := 0; j_ := 1 |};
           {| i_ := 1; j_ := 1 |}; {| i_ := 1; j_ := 2 |}; {| i_ := 1; j_ := 0 |}],
          [5; 18; 20; 1; 1; 2],
          [call_setEf 6; call_searchKnn (ptr_add query 4) 3;
           call_searchKnn query 3])
  /\ search_frame this (searched this index 2 3) true
       [call_setEf 6; call_searchKnn (ptr_add query 4) 3; call_searchKnn query 3].
Proof.
  intros this index query.
  assert (Hrun : SearchNeighbours_scheduled [1; 0] this query 2 [] [] 3
                 = Done (true, searched this index 2 3,
                         [{| i_ := 0; j_ := 3 |}; {| i_ := 0; j_ := 2 |};
                          {| i_ := 0; j_ := 1 |}; {| i_ := 1; j_ := 1 |};
                          {| i_ := 1; j_ := 2 |}; {| i_ := 1; j_ := 0 |}],
                         [5; 18; 20; 1; 1; 2],
                         [call_setEf 6; call_searchKnn (ptr_add query 4) 3;
                          call_searchKnn query 3]))
    by reflexivity.
  split; [exact Hrun|].
  exact (proj2 (searches_never_rebuild this) _ _ _ _ _ _ _ _ _ _ _ Hrun).
Defined.

Lemma reachable_invariant_witness :
  let this := built L2_HNSW c_int 4 in
  reachable this /\
  (HNSW_matcher_ this = None <-> HNSW_metric_ this = None)
  /\ (forall space, HNSW_metric_ this = Some space ->
        @supported (Exhaustive.args L2_HNSW c_int) = true
        /\ space_dim space = to_size_t (dimension_ this))
  /\ (@supported (Exhaustive.args L2_HNSW c_int) = false -> HNSW_matcher_ this = None).
Proof.
  intros this.
  assert (Hr : reachable this).
  { apply (reachable_Build (fresh L2_HNSW c_int) (seqZ 1 (4 - 1))
             (descriptors L2_HNSW c_int) 4 4
             true this
             (call_new {| space_class := L2SpaceI; space_dim := 4 |} 4 16 100
                :: ((fun i => call_addPoint (ptr_add (descriptors L2_HNSW c_int) (4 * i)) i)
                      <$> seqZ 0 4))).
    - apply reachable_default.
    - apply Permutation_refl.
    - reflexivity. }
  split; [exact Hr|]. exact (reachable_invariant this Hr).
Defined.

(** On the worked example every query finds its three neighbours. *)
Lemma example_full_results i :
  0 <= i < 2 ->
  Z.of_nat (length (searchKnn
                      (setEf (built_index L2_HNSW c_int 4 :
                                @HierarchicalNSW (Exhaustive.args L2_HNSW c_int)
                                  Exhaustive.lib)
                         (efSearch 3 2))
                      (ptr_add (two_queries L2_HNSW c_int)
                         (dimension_ (built L2_HNSW c_int 4) * i)) 3)) = 3.
Proof.
  intros Hi. assert (Hc : i = 0 \/ i = 1) by lia.
  destruct Hc as [-> | ->]; reflexivity.
Defined.

Lemma full_results_ignore_old_content_witness :
  let this := built L2_HNSW c_int 4 in
  let index : @HierarchicalNSW (Exhaustive.args L2_HNSW c_int) Exhaustive.lib :=
    built_index L2_HNSW c_int 4 in
  let query := two_queries L2_HNSW c_int in
  batch_defined this index query 2 3 /\
  SearchNeighbours this query 2 [] [] 3
  = SearchNeighbours this query 2 [{| i_ := 9; j_ := 9 |}] [77; 78] 3.
Proof.
  intros this index query. split; [exact example_batch_defined|].
  exact (full_results_ignore_old_content this index query 2 3
           [] [] [{| i_ := 9; j_ := 9 |}] [77; 78]
           example_batch_defined example_full_results).
Defined.

Lemma results_reported_once_witness :
  let this := built L2_HNSW c_int 4 in
  let index : @HierarchicalNSW (Exhaustive.args L2_HNSW c_int) Exhaustive.lib :=
    built_index L2_HNSW c_int 4 in
  let query := two_queries L2_HNSW c_int in
  batch_defined this index query 2 3 /\
  exists indices distances calls,
    SearchNeighbours this query 2 [] [] 3
    = Done (true, searched this index 2 3, indices, distances, calls)
    /\ forall i, 0 <= i < 2 ->
       let returned := searchKnn (setEf index (efSearch 3 2))
                         (ptr_add query (dimension_ this * i)) 3 in
       Permutation (drop (Z.to_nat 3 - length returned) (block_of 3 i indices))
                   (match_of i <$> returned)
       /\ Permutation (drop (Z.to_nat 3 - length returned) (block_of 3 i distances))
                      (fst <$> returned).
Proof.
  intros this index query. split; [exact example_batch_defined|].
  exact (results_reported_once this index query 2 [] [] 3 example_batch_defined).
Defined.

(** ** The PLY export *)
Section SavePLY.

Context {double Vec3 : Type} {H : sfm_data_h double Vec3}.
Variables (STRUCTURE CONTROL_POINTS EXTRINSICS : Z).

(** What is written for a view is its vertices. *)
Lemma write_view_vertices (sfm_data : SfM_Data) b_write_in_ascii (view : Z * View) :
  write_view sfm_data b_write_in_ascii view
  = concat (put_vertex b_write_in_ascii <$> view_vertices sfm_data view).
Proof.
  unfold write_view, view_vertices.
  destruct (IsPoseAndIntrinsicDefined sfm_data view.2);
    destruct (as_ViewPriors view.2) as [prior|];
    try destruct (b_use_pose_center_ prior);
    destruct b_write_in_ascii; reflexivity.
Qed.

Lemma write_views_vertices (sfm_data : SfM_Data) b_write_in_ascii (views : list (Z * View)) :
  concat (write_view sfm_data b_write_in_ascii <$> views)
  = concat (put_vertex b_write_in_ascii <$> concat (view_vertices sfm_data <$> views)).
Proof.
  induction views as [|view views IH]; [reflexivity|].
  cbn [fmap list_fmap concat]. rewrite fmap_app, concat_app.
  rewrite write_view_vertices. f_equal. exact IH.
Qed.

Lemma put_points (colour : Vec3 -> ply_vertex Vec3) (text : string) (r g b : Z)
    (b_write_in_ascii : bool) (points : list (Z * Landmark)) :
  (forall p, colour p = {| vertex_point := p; vertex_red := r; vertex_green := g;
                           vertex_blue := b; vertex_colour_text := text |}) ->
  concat ((fun l : Z * Landmark =>
             if b_write_in_ascii then
               [put_double (coord (X l.2) 0); put_text " ";
                put_double (coord (X l.2) 1); put_text " ";
                put_double (coord (X l.2) 2); put_text " ";
                put_text (text ++ nl)%string]
             else
               [write_Vec3 (X l.2); write_Vec3uc r g b]) <$> points)
  = concat (put_vertex b_write_in_ascii <$> ((fun l : Z * Landmark => colour (X l.2)) <$> points)).
Proof.
  intros Hc. induction points as [|l points IH]; [reflexivity|].
  cbn [fmap list_fmap concat]. rewrite Hc.
  rewrite IH. reflexivity.
Qed.

(** The two counters of the views, as long as they do not wrap around. *)
Lemma count_poses (sfm_data : SfM_Data) (views : list (Z * View)) : forall count,
  0 <= count -> count + Z.of_nat (length views) < 2 ^ 32 ->
  foldl (fun count view =>
           to_IndexT (count + Z.b2z (IsPoseAndIntrinsicDefined sfm_data view.2)))
        count views
  = count + Z.of_nat (length (filter (fun view => IsPoseAndIntrinsicDefined sfm_data view.2 = true)
                                     views)).
Proof.
  induction views as [|view views IH]; intros count H0 Hlt.
  - cbn. lia.
  - cbn [foldl length] in *. rewrite filter_cons.
    destruct (IsPoseAndIntrinsicDefined sfm_data view.2) eqn:E.
    + rewrite decide_True by reflexivity. cbn [Z.b2z length].
      unfold to_IndexT. rewrite Z.mod_small by lia. rewrite IH by lia. lia.
    + rewrite decide_False by discriminate. cbn [Z.b2z].
      unfold to_IndexT. rewrite Z.mod_small by lia. rewrite IH by lia. lia.
Qed.

Lemma count_priors (views : list (Z * View)) : forall count,
  0 <= count -> count + Z.of_nat (length views) < 2 ^ 32 ->
  foldl (fun count (view : Z * View) =>
           match as_ViewPriors view.2 with
           | Some prior => to_IndexT (count + Z.b2z (b_use_pose_center_ prior))
           | None => count
           end)
        count views
  = count + Z.of_nat (length (filter (fun view : Z * View =>
                                        b_use_pose_center_ <$> as_ViewPriors view.2 = Some true)
                                     views)).
Proof.
  induction views as [|view views IH]; intros count H0 Hlt.
  - cbn. lia.
  - cbn [foldl length] in *. rewrite filter_cons.
    destruct (as_ViewPriors view.2) as [prior|] eqn:E; cbn [fmap option_fmap option_map].
    + destruct (b_use_pose_center_ prior) eqn:E'.
      * rewrite decide_True by reflexivity. cbn [Z.b2z length].
        unfold to_IndexT. rewrite Z.mod_small by lia. rewrite IH by lia. lia.
      * rewrite decide_False by discriminate. cbn [Z.b2z].
        unfold to_IndexT. rewrite Z.mod_small by lia. rewrite IH by lia. lia.
    + rewrite decide_False by discriminate. rewrite IH by lia. lia.
Qed.

(** The vertices of the views are as many as the two counters say. *)
Lemma length_view_vertices (sfm_data : SfM_Data) (views : list (Z * View)) :
  length (concat (view_vertices sfm_data <$> views))
  = (length (filter (fun view => IsPoseAndIntrinsicDefined sfm_data view.2 = true) views)
     + length (filter (fun view : Z * View =>
                         b_use_pose_center_ <$> as_ViewPriors view.2 = Some true) views))%nat.
Proof.
  induction views as [|view views IH]; [reflexivity|].
  cbn [fmap list_fmap concat]. rewrite length_app, IH, !filter_cons.
  unfold view_vertices.
  destruct (IsPoseAndIntrinsicDefined sfm_data view.2);
    destruct (as_ViewPriors view.2) as [prior|];
    cbn [fmap option_fmap option_map];
    try destruct (b_use_pose_center_ prior);
    repeat first [rewrite decide_True by reflexivity
                 |rewrite decide_False by discriminate];
    cbn [length app]; lia.
Qed.

Lemma length_filter_le {A} (P : A -> Prop) `{forall x, Decision (P x)} (l : list A) :
  (length (filter P l) <= length l)%nat.
Proof. apply length_filter. Qed.

(** X8.  [Save_PLY] returns [false] and writes nothing when none of the
    three flags is set, and also when the stream cannot be created.
    Otherwise it returns what [good()] says after the flush and the file
    is a PLY header followed by the vertices of the views (pose centres in
    green, prior centres in use in blue), the landmarks in white and the
    control points in red, each group when its flag is set and in that
    order; as long as the views are fewer than 2^32 and the count does not
    pass [size_t], the vertex count the header declares is the number of
    vertices that follow. *)
Theorem Save_PLY_vertex_count (opens good : bool) (sfm_data : SfM_Data)
    (filename : string) (flags_part : Z) (b_write_in_ascii : bool) :
  Z.of_nat (length (GetViews sfm_data)) < 2 ^ 32 ->
  Z.of_nat (length (GetLandmarks sfm_data))
  + Z.of_nat (length (GetControl_Points sfm_data)) + 2 ^ 33 <= SIZE_MODULUS ->
  Save_PLY STRUCTURE CONTROL_POINTS EXTRINSICS opens good sfm_data filename
           flags_part b_write_in_ascii
  = if has_flag flags_part STRUCTURE || has_flag flags_part EXTRINSICS
       || has_flag flags_part CONTROL_POINTS
    then
      if opens then
        let vertices := ply_vertices STRUCTURE CONTROL_POINTS EXTRINSICS
                          sfm_data flags_part in
        (good,
         Some (ply_header b_write_in_ascii (Z.of_nat (length vertices))
               ++ concat (put_vertex b_write_in_ascii <$> vertices)))
      else (false, None)
    else (false, None).
Proof.
  intros Hviews Hsize. unfold Save_PLY.
  destruct (has_flag flags_part STRUCTURE || has_flag flags_part EXTRINSICS
            || has_flag flags_part CONTROL_POINTS) eqn:Hflags; [|reflexivity].
  destruct opens; [|reflexivity].
  cbn [negb]. cbv zeta. f_equal. f_equal.
  unfold ply_vertices.
  rewrite !fmap_app, !concat_app.
  f_equal; [|f_equal; [|f_equal]].
  - unfold ply_header. change (15 + 1) with 16. do 9 f_equal.
    f_equal. rewrite !length_app.
    pose proof (length_filter_le
                  (fun view => IsPoseAndIntrinsicDefined sfm_data view.2 = true)
                  (GetViews sfm_data)) as Hp.
    pose proof (length_filter_le
                  (fun view : Z * View =>
                     b_use_pose_center_ <$> as_ViewPriors view.2 = Some true)
                  (GetViews sfm_data)) as Hq.
    unfold count_views_with_pose, count_views_with_pose_prior.
    rewrite count_poses, count_priors by lia.
    assert (Hlen : length (if has_flag flags_part EXTRINSICS
                           then concat (view_vertices sfm_data <$> GetViews sfm_data)
                           else [])
                   = if has_flag flags_part EXTRINSICS
                     then (length (filter (fun view =>
                                             IsPoseAndIntrinsicDefined sfm_data view.2 = true)
                                          (GetViews sfm_data))
                           + length (filter (fun view : Z * View =>
                                               b_use_pose_center_ <$> as_ViewPriors view.2
                                               = Some true)
                                            (GetViews sfm_data)))%nat
                     else 0%nat).
    { destruct (has_flag flags_part EXTRINSICS); [apply length_view_vertices|reflexivity]. }
    rewrite Hlen. clear Hlen.
    unfold to_size_t, SIZE_MODULUS in *.
    destruct (has_flag flags_part EXTRINSICS), (has_flag flags_part STRUCTURE),
      (has_flag flags_part CONTROL_POINTS);
      rewrite ?length_fmap; cbn [length]; f_equal; rewrite Z.mod_small; lia.
  - destruct (has_flag flags_part EXTRINSICS); [apply write_views_vertices|reflexivity].
  - destruct (has_flag flags_part STRUCTURE); [|reflexivity].
    apply (put_points white "255 255 255" 255 255 255). reflexivity.
  - destruct (has_flag flags_part CONTROL_POINTS); [|reflexivity].
    apply (put_points red "255 0 0" 255 0 0). reflexivity.
Qed.

End SavePLY.

(** The small scene written as text with the flags for the structure (8)
    and the extrinsics (2) set, and the one for the control points (16)
    not: three vertices, the pose centre, the prior centre and the
    landmark. *)
Lemma Save_PLY_vertex_count_witness :
  Z.of_nat (length (@GetViews Z point scene_h small_scene)) < 2 ^ 32 /\
  Z.of_nat (length (@GetLandmarks Z point scene_h small_scene))
  + Z.of_nat (length (@GetControl_Points Z point scene_h small_scene)) + 2 ^ 33
  <= SIZE_MODULUS /\
  @Save_PLY Z point scene_h 8 16 2 true true small_scene "scene.ply" 10 true
  = (true,
     Some (@ply_header Z point true 3
           ++ concat (@put_vertex Z point scene_h true
                        <$> [green (0, 0, 0); blue (1, 1, 1); white (2, 3, 4)]))).
Proof.
  assert (H1 : Z.of_nat (length (@GetViews Z point scene_h small_scene)) < 2 ^ 32)
    by (vm_compute; reflexivity).
  assert (H2 : Z.of_nat (length (@GetLandmarks Z point scene_h small_scene))
               + Z.of_nat (length (@GetControl_Points Z point scene_h small_scene)) + 2 ^ 33
               <= SIZE_MODULUS)
    by (vm_compute; discriminate).
  split; [exact H1|]. split; [exact H2|].
  exact (@Save_PLY_vertex_count Z point scene_h 8 16 2 true true small_scene
           "scene.ply" 10 true H1 H2).
Defined.
